(** * file-uploader: the S3 facade of package [s3]

    A shallow embedding of [s3/entity.go], [s3/validation.go],
    [s3/service.go] and of the download validation, followed by the
    properties of the operation contracts.

    The Go code talks to three collaborators that are not part of the
    package: the Go standard library ([path/filepath], [mime],
    [encoding/base64], [fmt]), the local file system ([os]) and the AWS SDK
    client.  The pure library functions are modelled by executable
    definitions (section "Go standard library"); the file system and the
    object store are modelled as state, together with an oracle that decides
    which calls fail (section "The world").  Every operation of the package
    is a state transformer over that world and appends the calls it makes to
    a chronological trace.  The log lines the package prints are not part of
    the model. *)

From Stdlib Require Import ZArith NArith String Ascii List Lia.
From Stdlib.Strings Require Byte.
From stdpp Require Import gmap strings list fin_maps.

Import ListNotations.
Local Open Scope string_scope.
Local Open Scope list_scope.
Local Open Scope Z_scope.

(* ===================================================================== *)
(** * Errors *)
(* ===================================================================== *)

(** What [errors.As] can find inside an error returned by the SDK: a
    [smithy.APIError] (the code only asks whether its dynamic type is
    [*types.NotFound]) and a [*awsHttp.ResponseError] with its HTTP status
    code.  A transport failure (connection refused, timeout) carries
    neither. *)
Inductive APIErrorKind : Type :=
| TypesNotFound
| OtherAPIError.

Record SdkError : Type := mkSdkError {
  sdkMessage : string;
  asAPIError : option APIErrorKind;
  asResponseError : option Z
}.

(** Go [error] values that flow through the package; [nil] is [None]. *)
Inductive GoError : Type :=
| ErrorString (msg : string)
| CorruptInputError (offset : Z)
| PathError (op path msg : string)
| SdkErr (e : SdkError).

Definition errors_New (msg : string) : GoError := ErrorString msg.

(** entity.go *)
Definition ErrBucketNotFound : GoError := errors_New "bucket not found".
Definition ErrFileNotFound : GoError := errors_New "file not found".

Definition StatusNotFound : Z := 404.

(* ===================================================================== *)
(** * Go standard library *)
(* ===================================================================== *)

Module GoStrings.

Fixpoint dropWhile {A} (p : A -> bool) (l : list A) : list A :=
  match l with
  | [] => []
  | x :: l' => if p x then dropWhile p l' else l
  end.

Fixpoint takeWhile {A} (p : A -> bool) (l : list A) : list A :=
  match l with
  | [] => []
  | x :: l' => if p x then x :: takeWhile p l' else []
  end.

Definition code (c : ascii) : N := N_of_ascii c.

(** Go strings are byte strings that hold UTF-8.  [unicode.IsSpace] is
    true of the ASCII white space, of U+0085 and U+00A0 (two bytes each) and
    of U+1680, U+2000 to U+200A, U+2028, U+2029, U+202F, U+205F and U+3000
    (three bytes each). *)
Definition isSpace (c : ascii) : bool :=
  let n := code c in
  ((9 <=? n) && (n <=? 13) || (n =? 32))%N.

Definition isSpace2 (c d : ascii) : bool :=
  ((code c =? 194) && ((code d =? 133) || (code d =? 160)))%N.

Definition isSpace3 (c d e : ascii) : bool :=
  let '(a, b, n) := (code c, code d, code e) in
  ((a =? 225) && (b =? 154) && (n =? 128)
   || (a =? 226) && (b =? 128)
      && ((128 <=? n) && (n <=? 138) || (n =? 168) || (n =? 169) || (n =? 175))
   || (a =? 226) && (b =? 129) && (n =? 159)
   || (a =? 227) && (b =? 128) && (n =? 128))%N.

(** [strings.TrimLeftFunc(s, unicode.IsSpace)]: the white-space runes at
    the beginning are removed.  A byte that begins no white-space rune ends
    the trimming, also when it is no valid UTF-8. *)
Fixpoint TrimLeftSpace (s : list ascii) : list ascii :=
  match s with
  | [] => []
  | c :: s1 =>
    if isSpace c then TrimLeftSpace s1
    else
      match s1 with
      | [] => s
      | d :: s2 =>
        if isSpace2 c d then TrimLeftSpace s2
        else
          match s2 with
          | [] => s
          | e :: s3 => if isSpace3 c d e then TrimLeftSpace s3 else s
          end
      end
  end.

(** The same from the end, on the reversed bytes: the last rune of a
    string is found by going back to the nearest byte that begins a rune,
    and the bytes that begin a white-space rune are no continuation
    bytes. *)
Fixpoint trimLeftSpaceRev (r : list ascii) : list ascii :=
  match r with
  | [] => []
  | c :: r1 =>
    if isSpace c then trimLeftSpaceRev r1
    else
      match r1 with
      | [] => r
      | d :: r2 =>
        if isSpace2 d c then trimLeftSpaceRev r2
        else
          match r2 with
          | [] => r
          | e :: r3 => if isSpace3 e d c then trimLeftSpaceRev r3 else r
          end
      end
  end.

(** [strings.TrimSpace] *)
Definition TrimSpace (s : list ascii) : list ascii :=
  rev (trimLeftSpaceRev (rev (TrimLeftSpace s))).

Definition toLowerChar (c : ascii) : ascii :=
  let n := code c in
  if ((65 <=? n) && (n <=? 90))%N then ascii_of_N (n + 32) else c.

(** [strings.ToLower], as far as the media-type parser can tell.  The
    ASCII capitals are lowered; U+0130 (bytes 196 176) is lowered to ["i"]
    and U+212A (bytes 226 132 170) to ["k"], the two runes outside ASCII
    whose lower case is in ASCII.  Go maps every other rune outside ASCII
    to a rune outside ASCII, and a byte that is no UTF-8 to U+FFFD; the
    model leaves those bytes in place: the parser only asks of them
    whether they are white space or token characters, and the answer is
    the same before and after the mapping. *)
Fixpoint ToLower (s : list ascii) : list ascii :=
  match s with
  | [] => []
  | c :: s1 =>
    match s1 with
    | [] => [toLowerChar c]
    | d :: s2 =>
      if ((code c =? 196) && (code d =? 176))%N then "i"%char :: ToLower s2
      else
        match s2 with
        | [] => toLowerChar c :: ToLower s1
        | e :: s3 =>
          if ((code c =? 226) && (code d =? 132) && (code e =? 170))%N
          then "k"%char :: ToLower s3
          else toLowerChar c :: ToLower s1
        end
    end
  end.

Definition isChar (c d : ascii) : bool := Ascii.eqb c d.

End GoStrings.

(** ** [path/filepath] (Unix) and [fmt] *)

Definition isPathSeparator (c : ascii) : bool := Ascii.eqb c "/"%char.

(** [filepath.Base]: the last element of the path, after the trailing
    separators are removed; ["."] for the empty path and ["/"] for a path of
    separators only. *)
Definition filepath_Base (path : string) : string :=
  match path with
  | EmptyString => "."
  | _ =>
    let stripped := GoStrings.dropWhile isPathSeparator (rev (list_ascii_of_string path)) in
    match GoStrings.takeWhile (fun c => negb (isPathSeparator c)) stripped with
    | [] => "/"
    | last => string_of_list_ascii (rev last)
    end
  end.

(** [fmt.Sprintf("%s/%s/%s", a, b, c)] *)
Definition Sprintf_path3 (a b c : string) : string :=
  a +:+ "/" +:+ b +:+ "/" +:+ c.

(** ** [mime.ExtensionsByType]

    Only the error result is used by the package.  The function parses its
    argument with [mime.ParseMediaType] and returns that error; a type that
    parses but has no registered extension gives a nil slice and a nil
    error.  The model works on the UTF-8 bytes of the string. *)
Module Mime.
Import GoStrings.

Definition isTSpecial (c : ascii) : bool :=
  existsb (Ascii.eqb c) ("034"%char :: list_ascii_of_string "()<>@,;:\/[]?=").

Definition isTokenChar (c : ascii) : bool :=
  let n := code c in
  ((32 <? n) && (n <? 127))%N && negb (isTSpecial c).

Definition consumeToken (v : list ascii) : list ascii * list ascii :=
  (takeWhile isTokenChar v, dropWhile isTokenChar v).

Definition checkMediaTypeDisposition (s : list ascii) : option GoError :=
  let '(typ, rest) := consumeToken s in
  match typ, rest with
  | [], _ => Some (errors_New "mime: no media type")
  | _, [] => None
  | _, c :: rest1 =>
    if negb (isChar c "/") then
      Some (errors_New "mime: expected slash after first token")
    else
      let '(subtype, rest2) := consumeToken rest1 in
      match subtype, rest2 with
      | [], _ => Some (errors_New "mime: expected token after slash")
      | _, _ :: _ => Some (errors_New "mime: unexpected content after media subtype")
      | _, [] => None
      end
  end.

(** The quoted-string branch of [consumeValue]; [None] when the closing
    quote is missing or a line break is met. *)
Fixpoint consumeQuoted (v : list ascii) (buffer : list ascii)
  : option (list ascii * list ascii) :=
  match v with
  | [] => None
  | r :: v1 =>
    if isChar r "034" then Some (rev buffer, v1)
    else
      match v1 with
      | e :: v2 =>
        if isChar r "\" && isTSpecial e then consumeQuoted v2 (e :: buffer)
        else if isChar r "013" || isChar r "010" then None
        else consumeQuoted v1 (r :: buffer)
      | [] =>
        if isChar r "013" || isChar r "010" then None
        else consumeQuoted v1 (r :: buffer)
      end
  end.

Definition consumeValue (v : list ascii) : list ascii * list ascii :=
  match v with
  | [] => ([], [])
  | c :: v1 =>
    if isChar c "034" then
      match consumeQuoted v1 [] with
      | Some r => r
      | None => ([], v)
      end
    else consumeToken v
  end.

Definition consumeMediaParam (v : list ascii)
  : list ascii * list ascii * list ascii :=
  match TrimLeftSpace v with
  | c :: rest0 =>
    if negb (isChar c ";") then ([], [], v)
    else
      let '(param, rest1) := consumeToken (TrimLeftSpace rest0) in
      match ToLower param with
      | [] => ([], [], v)
      | param =>
        match TrimLeftSpace rest1 with
        | e :: rest2 =>
          if negb (isChar e "=") then ([], [], v)
          else
            let rest3 := TrimLeftSpace rest2 in
            let '(value, rest4) := consumeValue rest3 in
            match value with
            | [] => if decide (rest4 = rest3) then ([], [], v) else (param, value, rest4)
            | _ => (param, value, rest4)
            end
        | [] => ([], [], v)
        end
      end
  | [] => ([], [], v)
  end.

Fixpoint lookupParam (key : list ascii) (seen : list (list ascii * list ascii))
  : option (list ascii) :=
  match seen with
  | [] => None
  | (k, x) :: seen' => if decide (k = key) then Some x else lookupParam key seen'
  end.

(** The parameter loop of [ParseMediaType].  Go keeps the parameters whose
    name has a ['*'] in a second map, keyed by the part before the star and
    then by the whole name; a name is looked up in exactly one of the maps,
    so one association list on whole names decides the duplicate test. *)
Fixpoint parseParams (fuel : nat) (v : list ascii)
  (seen : list (list ascii * list ascii)) : option GoError :=
  match fuel with
  | O => None
  | S fuel' =>
    match TrimLeftSpace v with
    | [] => None
    | v1 =>
      let '(key, value, rest) := consumeMediaParam v1 in
      match key with
      | [] =>
        if decide (TrimSpace rest = [";"%char]) then None
        else Some (errors_New "mime: invalid media parameter")
      | _ =>
        match lookupParam key seen with
        | Some x =>
          if decide (x = value) then parseParams fuel' rest ((key, value) :: seen)
          else Some (errors_New "mime: duplicate parameter name")
        | None => parseParams fuel' rest ((key, value) :: seen)
        end
      end
    end
  end.

Definition ParseMediaType_err (v : string) : option GoError :=
  let v := list_ascii_of_string v in
  let base := takeWhile (fun c => negb (isChar c ";")) v in
  let mediatype := TrimSpace (ToLower base) in
  match checkMediaTypeDisposition mediatype with
  | Some err => Some err
  | None =>
    let params := dropWhile (fun c => negb (isChar c ";")) v in
    parseParams (S (length params)) params []
  end.

Definition ExtensionsByType_err (typ : string) : option GoError :=
  ParseMediaType_err typ.

End Mime.


(** ** [encoding/base64]: [StdEncoding.DecodeString]

    The standard alphabet with ['='] padding, not strict; carriage returns
    and line feeds are skipped.  The decoder reads quanta of four symbols;
    [dbuf] holds the symbols of the current quantum, [si] is the index of
    the next input byte and [len] the length of the whole input.  As in Go
    the bytes decoded before an error are returned with the error. *)
Module Base64.
Import GoStrings.

Definition decodeMap (c : ascii) : option N :=
  let n := code c in
  (if (65 <=? n) && (n <=? 90) then Some (n - 65)
   else if (97 <=? n) && (n <=? 122) then Some (n - 97 + 26)
   else if (48 <=? n) && (n <=? 57) then Some (n - 48 + 52)
   else if n =? 43 then Some 62
   else if n =? 47 then Some 63
   else None)%N.

Definition isNewline (c : ascii) : bool := isChar c "010" || isChar c "013".

Definition padChar : ascii := "="%char.

Definition toByte (n : N) : Byte.byte := byte_of_ascii (ascii_of_N (n mod 256)).

(** The conversion of four 6-bit symbols into three bytes, of which the
    first [dlen - 1] are output. *)
Definition quantumBytes (dbuf : list N) (dlen : nat) : list Byte.byte :=
  let d i := nth i dbuf 0%N in
  let val := N.lor (N.lor (N.lor (N.shiftl (d 0%nat) 18) (N.shiftl (d 1%nat) 12))
                          (N.shiftl (d 2%nat) 6)) (d 3%nat) in
  firstn (dlen - 1)
    [toByte (N.shiftr val 16); toByte (N.shiftr val 8); toByte val].

Fixpoint skipNewlines (src : list ascii) (si : Z) : list ascii * Z :=
  match src with
  | c :: src' => if isNewline c then skipNewlines src' (si + 1) else (src, si)
  | [] => ([], si)
  end.

(** After the padding: anything but line breaks is trailing garbage. *)
Definition afterPadding (src : list ascii) (si : Z) : option GoError :=
  let '(src', si') := skipNewlines src si in
  match src' with
  | [] => None
  | _ :: _ => Some (CorruptInputError si')
  end.

Fixpoint decode (src : list ascii) (si len : Z) (dbuf : list N) (dst : list Byte.byte)
  : list Byte.byte * option GoError :=
  match src with
  | [] =>
    match dbuf with
    | [] => (dst, None)
    | _ :: _ => (dst, Some (CorruptInputError (si - Z.of_nat (length dbuf))))
    end
  | c :: src' =>
    let si := si + 1 in
    match decodeMap c with
    | Some out =>
      let dbuf := (dbuf ++ [out])%list in
      if (length dbuf =? 4)%nat
      then decode src' si len [] (dst ++ quantumBytes dbuf 4)
      else decode src' si len dbuf dst
    | None =>
      if isNewline c then decode src' si len dbuf dst
      else if negb (isChar c padChar) then (dst, Some (CorruptInputError (si - 1)))
      else
        match length dbuf with
        | 0%nat | 1%nat => (dst, Some (CorruptInputError (si - 1)))
        | 2%nat =>
          let '(src2, si2) := skipNewlines src' si in
          match src2 with
          | [] => (dst, Some (CorruptInputError len))
          | c2 :: src3 =>
            if negb (isChar c2 padChar) then (dst, Some (CorruptInputError (si2 - 1)))
            else ((dst ++ quantumBytes dbuf 2)%list, afterPadding src3 (si2 + 1))
          end
        | _ => ((dst ++ quantumBytes dbuf 3)%list, afterPadding src' si)
        end
    end
  end.

Definition DecodeString (s : string) : list Byte.byte * option GoError :=
  let src := list_ascii_of_string s in
  decode src 0 (Z.of_nat (length src)) [] [].

End Base64.

Definition bytes_of_string (s : string) : list Byte.byte :=
  map byte_of_ascii (list_ascii_of_string s).

(* ===================================================================== *)
(** * The world: object store, file system, identifiers *)
(* ===================================================================== *)

(** entity.go and the data types of the service *)
Module UploadFileData.
Record t : Type := mk {
  BucketName : string;
  ContentType : string;
  Filename : string;
  Base64Encoding : string
}.
End UploadFileData.

Module DeleteFileData.
Record t : Type := mk {
  BucketName : string;
  Filename : list string
}.
End DeleteFileData.

Module DownloadFileRequest.
Record t : Type := mk {
  BucketName : string;
  Filename : string
}.
End DownloadFileRequest.

(** [s3.PutObjectInput], with the fields the package sets; [Body] is the
    content of the opened file. *)
Module PutObjectInput.
Record t : Type := mk {
  Bucket : string;
  Key : string;
  ContentType : string;
  Body : list Byte.byte
}.
End PutObjectInput.

(** [types.ObjectIdentifier], with the field the package sets. *)
Module ObjectIdentifier.
Record t : Type := mk {
  Key : string
}.
End ObjectIdentifier.

(** The calls of the package to the SDK client and to package [os]. *)
Inductive S3Call : Type :=
| CreateBucketCall (bucket locationConstraint : string)
| HeadBucketCall (bucket : string)
| HeadObjectCall (bucket key : string)
| UploadCall (input : PutObjectInput.t) (partSize : Z)
| DeleteObjectsCall (bucket : string) (objects : list ObjectIdentifier.t).

Inductive OsCall : Type :=
| OsCreate (name : string)
| FileWrite (name : string) (b : list Byte.byte)
| OsOpen (name : string)
| OsRemoveAll (path : string).

Inductive Event : Type :=
| S3Event (c : S3Call)
| OsEvent (c : OsCall).

Record Object : Type := mkObject {
  objBody : list Byte.byte;
  objContentType : string
}.

(** What the package cannot control.  [s3Fault] and [osFault] say which
    calls fail for a reason of their own (no permission, no connection, a
    full disk) and with which error; [s3Location] is the locator the store
    assigns to an uploaded object; [NewV4] is the source of random
    identifiers.  The answer to a call is determined by the call and by the
    state of the store or of the file system at that moment. *)
Record Env : Type := mkEnv {
  s3Fault : S3Call -> option SdkError;
  s3Location : string -> string -> string;
  osFault : OsCall -> option GoError;
  TempDir : string;
  NewV4 : nat -> string
}.

Record World : Type := mkWorld {
  store : gmap string (gmap string Object);
  files : gmap string (list Byte.byte);
  uuidCount : nat;
  trace : list Event
}.

Definition notFound : SdkError :=
  mkSdkError "NotFound: Not Found" (Some TypesNotFound) (Some 404).
Definition noSuchBucket : SdkError :=
  mkSdkError "NoSuchBucket: The specified bucket does not exist" (Some OtherAPIError) (Some 404).
Definition bucketAlreadyOwnedByYou : SdkError :=
  mkSdkError "BucketAlreadyOwnedByYou" (Some OtherAPIError) (Some 409).

(** The error of the client for a batch delete without objects: the
    [Objects] slice of the input is nil, a required field is missing. *)
Definition missingObjects : SdkError :=
  mkSdkError "validation error(s) found: missing required field, Delete.Objects"
             None None.

(** The error of the client for a head request with an empty key: the key
    is part of the request path and must not be empty. *)
Definition emptyKey : SdkError :=
  mkSdkError "input member Key must not be empty" None None.

(** The answer to a call and the state of the store afterwards.  The
    client checks the input before it sends anything: a batch delete whose
    object list is empty (the nil slice of [DeleteFile]) and a head request
    for an empty key (a requested name of [DeleteFile] may be empty) are
    refused by the client itself, whatever the store would do.  The other
    calls of the package carry names that its validation has found not
    empty. *)
Definition s3Step (env : Env) (c : S3Call) (st : gmap string (gmap string Object))
  : option SdkError * gmap string (gmap string Object) :=
  match c with
  | DeleteObjectsCall _ [] => (Some missingObjects, st)
  | HeadObjectCall _ EmptyString => (Some emptyKey, st)
  | _ =>
  match s3Fault env c with
  | Some err => (Some err, st)
  | None =>
    match c with
    | CreateBucketCall bucket _ =>
      match st !! bucket with
      | Some _ => (Some bucketAlreadyOwnedByYou, st)
      | None => (None, <[bucket := ∅]> st)
      end
    | HeadBucketCall bucket =>
      match st !! bucket with
      | Some _ => (None, st)
      | None => (Some notFound, st)
      end
    | HeadObjectCall bucket key =>
      match st !! bucket ≫= (.!! key) with
      | Some _ => (None, st)
      | None => (Some notFound, st)
      end
    | UploadCall input _ =>
      match st !! PutObjectInput.Bucket input with
      | Some objs =>
        (None, <[PutObjectInput.Bucket input :=
                   <[PutObjectInput.Key input :=
                       mkObject (PutObjectInput.Body input)
                                (PutObjectInput.ContentType input)]> objs]> st)
      | None => (Some noSuchBucket, st)
      end
    | DeleteObjectsCall bucket objects =>
      match st !! bucket with
      | Some objs =>
        (None, <[bucket := foldr delete objs (map ObjectIdentifier.Key objects)]> st)
      | None => (Some noSuchBucket, st)
      end
    end
  end
  end.

Arguments s3Step : simpl never.

Definition osStep (env : Env) (c : OsCall) (fs : gmap string (list Byte.byte))
  : option GoError * gmap string (list Byte.byte) :=
  match osFault env c with
  | Some err => (Some err, fs)
  | None =>
    match c with
    | OsCreate name => (None, <[name := []]> fs)
    | FileWrite name b => (None, <[name := b]> fs)
    | OsOpen name =>
      match fs !! name with
      | Some _ => (None, fs)
      | None => (Some (PathError "open" name "no such file or directory"), fs)
      end
    | OsRemoveAll path => (None, delete path fs)
    end
  end.

Definition s3Do (env : Env) (c : S3Call) (w : World) : option SdkError * World :=
  let '(err, st) := s3Step env c (store w) in
  (err, mkWorld st (files w) (uuidCount w) (trace w ++ [S3Event c])).

Definition osDo (env : Env) (c : OsCall) (w : World) : option GoError * World :=
  let '(err, fs) := osStep env c (files w) in
  (err, mkWorld (store w) fs (uuidCount w) (trace w ++ [OsEvent c])).

(** [uuid.NewV4().String()] *)
Definition uuid_NewV4 (env : Env) (w : World) : string * World :=
  (NewV4 env (uuidCount w),
   mkWorld (store w) (files w) (S (uuidCount w)) (trace w)).

(* ===================================================================== *)
(** * service.go and validation.go *)
(* ===================================================================== *)

(** The service value: the region; the client handle [s3Cli] is the access
    to the store of the world. *)
Record s3Service : Type := mks3Service {
  region : string
}.

(** Two's complement [int64] arithmetic. *)
Definition int64 (z : Z) : Z := (z + 2 ^ 63) mod 2 ^ 64 - 2 ^ 63.

Definition partMiBs : Z := 10.
Definition PartSize : Z := int64 (int64 (partMiBs * 1024) * 1024).

Section Service.
Context (env : Env).

Definition CreateBucket (s : s3Service) (bucketName : string) (w : World)
  : option GoError * World :=
  if decide (bucketName = "") then
    (Some (errors_New "bucket name is required"), w)
  else
    let '(err, w) := s3Do env (CreateBucketCall bucketName (region s)) w in
    match err with
    | Some err => (Some (SdkErr err), w)
    | None => (None, w)
    end.

Definition isExistBucket (s : s3Service) (bucketName : string) (w : World)
  : (bool * option GoError) * World :=
  let '(err, w) := s3Do env (HeadBucketCall bucketName) w in
  match err with
  | Some err =>
    match asAPIError err with
    | Some TypesNotFound => ((false, None), w)
    | Some _ => ((false, Some (SdkErr err)), w)
    | None => ((true, None), w)
    end
  | None => ((true, None), w)
  end.

Definition isFileExist (s : s3Service) (bucketName filename : string) (w : World)
  : (bool * option GoError) * World :=
  let '(err, w) := s3Do env (HeadObjectCall bucketName filename) w in
  match err with
  | Some err =>
    match asResponseError err with
    | Some status =>
      if decide (status = StatusNotFound) then ((false, None), w)
      else ((false, Some (SdkErr err)), w)
    | None => ((false, Some (SdkErr err)), w)
    end
  | None => ((true, None), w)
  end.

Definition validateUploadFile (s : s3Service) (data : UploadFileData.t) (w : World)
  : option GoError * World :=
  if decide (UploadFileData.Filename data = "") then
    (Some (errors_New "filename is required"), w)
  else if decide (UploadFileData.Base64Encoding data = "") then
    (Some (errors_New "base64Encoding is required"), w)
  else if decide (UploadFileData.BucketName data = "") then
    (Some (errors_New "bucket name is required"), w)
  else
    match Mime.ExtensionsByType_err (UploadFileData.ContentType data) with
    | Some err => (Some err, w)
    | None =>
      let '((fileExist, err), w) :=
        isFileExist s (UploadFileData.BucketName data) (UploadFileData.Filename data) w in
      match err with
      | Some err => (Some err, w)
      | None =>
        if fileExist then
          (Some (ErrorString ("file " +:+ UploadFileData.Filename data
                              +:+ " already exist on bucket "
                              +:+ UploadFileData.BucketName data)), w)
        else (None, w)
      end
    end.

Definition validateDeleteFile (s : s3Service) (data : DeleteFileData.t)
  : option GoError :=
  if decide (length (DeleteFileData.Filename data) = 0%nat) then
    Some (errors_New "filename is required")
  else if decide (DeleteFileData.BucketName data = "") then
    Some (errors_New "bucket name is required")
  else None.

Definition validateDownloadFile (s : s3Service) (data : DownloadFileRequest.t) (w : World)
  : option GoError * World :=
  if decide (DownloadFileRequest.BucketName data = "") then
    (Some (errors_New "bucket name is required"), w)
  else if decide (DownloadFileRequest.Filename data = "") then
    (Some (errors_New "filename is required"), w)
  else
    let '((isExist, err), w) := isExistBucket s (DownloadFileRequest.BucketName data) w in
    match err with
    | Some err => (Some err, w)
    | None =>
      if negb isExist then (Some ErrBucketNotFound, w)
      else
        let '((isExist, err), w) :=
          isFileExist s (DownloadFileRequest.BucketName data)
                        (DownloadFileRequest.Filename data) w in
        match err with
        | Some err => (Some err, w)
        | None =>
          if negb isExist then (Some ErrFileNotFound, w) else (None, w)
        end
    end.

Definition createFile (fileBase64 pathFile : string) (w : World)
  : option GoError * World :=
  match Base64.DecodeString fileBase64 with
  | (_, Some err) => (Some err, w)
  | (dec, None) =>
    let '(err, w) := osDo env (OsCreate pathFile) w in
    match err with
    | Some err => (Some err, w)
    | None =>
      let '(err, w) := osDo env (FileWrite pathFile dec) w in
      match err with
      | Some err => (Some err, w)
      | None => (None, w)
      end
    end
  end.

Definition removeFile (pathFile : string) (w : World) : option GoError * World :=
  let '(err, w) := osDo env (OsRemoveAll pathFile) w in
  match err with
  | Some err => (Some err, w)
  | None => (None, w)
  end.

(** Line 103 of [UploadFile]: the name of the staged file. *)
Definition stagedPath (data : UploadFileData.t) (w : World) : string * World :=
  let tmp := TempDir env in
  let '(id, w) := uuid_NewV4 env w in
  (filepath_Base (Sprintf_path3 tmp id (UploadFileData.Filename data)), w).

(** Lines 114-147 of [UploadFile]: what runs between the registration of
    the deferred removal and the return. *)
Definition transfer (s : s3Service) (data : UploadFileData.t) (pathFile : string)
  (w : World) : (string * option GoError) * World :=
  let '(err, w) := osDo env (OsOpen pathFile) w in
  match err with
  | Some err => (("", Some err), w)
  | None =>
    let file := default [] (files w !! pathFile) in
    let '((bucketExist, err), w) := isExistBucket s (UploadFileData.BucketName data) w in
    match err with
    | Some err => (("", Some err), w)
    | None =>
      let '(err, w) :=
        if negb bucketExist
        then CreateBucket s (UploadFileData.BucketName data) w
        else (None, w) in
      match err with
      | Some err => (("", Some err), w)
      | None =>
        let input := PutObjectInput.mk (UploadFileData.BucketName data)
                                       (UploadFileData.Filename data)
                                       (UploadFileData.ContentType data)
                                       file in
        let '(err, w) := s3Do env (UploadCall input PartSize) w in
        match err with
        | Some err =>
          (("", Some (ErrorString ("failed to upload file: " +:+ sdkMessage err))), w)
        | None =>
          ((s3Location env (UploadFileData.BucketName data)
                           (UploadFileData.Filename data), None), w)
        end
      end
    end
  end.

Definition UploadFile (s : s3Service) (data : UploadFileData.t) (w : World)
  : (string * option GoError) * World :=
  let '(err, w) := validateUploadFile s data w in
  match err with
  | Some err => (("", Some err), w)
  | None =>
    let '(pathFile, w) := stagedPath data w in
    let '(err, w) := createFile (UploadFileData.Base64Encoding data) pathFile w in
    match err with
    | Some err => (("", Some err), w)
    | None =>
      let '(result, w) := transfer s data pathFile w in
      (* the deferred function: the error of the removal is only logged *)
      let '(_, w) := removeFile pathFile w in
      (result, w)
    end
  end.

(** The first loop of [DeleteFile]: [fileExist] collects, in request order,
    the names whose probe answered true; the first probe error ends the
    operation. *)
Fixpoint probeFiles (s : s3Service) (bucketName : string) (filenames : list string)
  (fileExist : list string) (w : World) : (list string + GoError) * World :=
  match filenames with
  | [] => (inl fileExist, w)
  | filename :: filenames' =>
    let '((isExist, err), w) := isFileExist s bucketName filename w in
    match err with
    | Some err => (inr err, w)
    | None =>
      probeFiles s bucketName filenames'
        (if isExist then (fileExist ++ [filename])%list else fileExist) w
    end
  end.

Definition DeleteFile (s : s3Service) (data : DeleteFileData.t) (w : World)
  : option GoError * World :=
  match validateDeleteFile s data with
  | Some err => (Some err, w)
  | None =>
    match probeFiles s (DeleteFileData.BucketName data)
                     (DeleteFileData.Filename data) [] w with
    | (inr err, w) => (Some err, w)
    | (inl fileExist, w) =>
      let objectIds := map ObjectIdentifier.mk fileExist in
      let '(err, w) :=
        s3Do env (DeleteObjectsCall (DeleteFileData.BucketName data) objectIds) w in
      match err with
      | Some err => (Some (SdkErr err), w)
      | None => (None, w)
      end
    end
  end.

End Service.

(* ===================================================================== *)
(** * Vocabulary of the specification *)
(* ===================================================================== *)

(** The error kinds of the specification are sets of error values of the
    code: a missing required field is reported by one of three messages, a
    name collision by a formatted message. *)
Definition InvalidArgument (err : GoError) : Prop :=
  err = errors_New "filename is required"
  ∨ err = errors_New "base64Encoding is required"
  ∨ err = errors_New "bucket name is required".

Definition AlreadyExists (err : GoError) : Prop :=
  ∃ filename bucket,
    err = ErrorString ("file " +:+ filename +:+ " already exist on bucket " +:+ bucket).

(** The world after a call that changes neither the store nor the files. *)
Definition logged (ev : Event) (w : World) : World :=
  mkWorld (store w) (files w) (uuidCount w) (trace w ++ [ev]).

Definition probeEvent (bucketName filename : string) : Event :=
  S3Event (HeadObjectCall bucketName filename).

(** The request passes the field and content-type gates of
    [validateUploadFile], so that the existence probe is made. *)
Definition reachesProbe (data : UploadFileData.t) : Prop :=
  UploadFileData.Filename data ≠ ""
  ∧ UploadFileData.Base64Encoding data ≠ ""
  ∧ UploadFileData.BucketName data ≠ ""
  ∧ Mime.ExtensionsByType_err (UploadFileData.ContentType data) = None.


(** A token of the media-type grammar, and a content type of the form
    type/subtype made of two tokens, without parameters. *)
Definition isToken (s : list ascii) : Prop :=
  s ≠ [] ∧ Forall (fun c => Mime.isTokenChar c = true) s.

(** What being a token character, or the slash, excludes: the byte is
    ASCII, no white space and no semicolon. *)
Definition plain (c : ascii) : Prop :=
  (GoStrings.code c < 128)%N
  ∧ GoStrings.isSpace c = false
  ∧ GoStrings.isChar c ";" = false.

Definition typeAndSubtype (contentType : string) : Prop :=
  ∃ typ subtype,
    isToken typ ∧ isToken subtype
    ∧ list_ascii_of_string contentType = typ ++ "/"%char :: subtype.


(** The requested names whose probe, made on the store of [w], answers
    true, in request order. *)
Definition existing (env : Env) (s : s3Service) (bucketName : string) (w : World)
  (filenames : list string) : list string :=
  List.filter (fun filename => fst (fst (isFileExist env s bucketName filename w)))
              filenames.

(** The probe of the name, made on the store of [w], returns no error. *)
Definition answers (env : Env) (s : s3Service) (bucketName : string) (w : World)
  (filename : string) : Prop :=
  snd (fst (isFileExist env s bucketName filename w)) = None.

(** The name has a character that is not a path separator. *)
Definition hasElement (filename : string) : Prop :=
  Exists (fun c => isPathSeparator c = false) (list_ascii_of_string filename).

(* ===================================================================== *)
(** * Scenarios *)
(* ===================================================================== *)

Module Scenario.

Definition svc : s3Service := mks3Service "ap-southeast-1".

Definition emptyWorld : World := mkWorld ∅ ∅ 0 [].

(** An environment in which nothing fails on its own. *)
Definition quiet : Env :=
  mkEnv (fun _ => None)
        (fun bucket key => "https://" +:+ bucket +:+ ".s3.amazonaws.com/" +:+ key)
        (fun _ => None)
        "/tmp"
        (fun n => "6ba7b810-9dad-41d1-80b4-00c04fd430c" +:+ String (ascii_of_nat (48 + n mod 10)) "").

Definition withS3Fault (f : S3Call -> option SdkError) : Env :=
  mkEnv f (s3Location quiet) (osFault quiet) (TempDir quiet) (NewV4 quiet).

Definition withOsFault (f : OsCall -> option GoError) : Env :=
  mkEnv (s3Fault quiet) (s3Location quiet) f (TempDir quiet) (NewV4 quiet).

Definition connectionRefused : SdkError :=
  mkSdkError "dial tcp 127.0.0.1:443: connect: connection refused" None None.

Definition accessDenied : SdkError :=
  mkSdkError "Forbidden: Forbidden" (Some OtherAPIError) (Some 403).

(** The store cannot be reached: every call fails in the transport. *)
Definition storeUnreachable : Env :=
  withS3Fault (fun _ => Some connectionRefused).

(** The probe of ["b.txt"] is denied. *)
Definition secondProbeDenied : Env :=
  withS3Fault (fun c => match c with
                        | HeadObjectCall _ "b.txt" => Some accessDenied
                        | _ => None
                        end).

Definition transferFails : Env :=
  withS3Fault (fun c => match c with
                        | UploadCall _ _ => Some accessDenied
                        | _ => None
                        end).

Definition removalFails : Env :=
  withOsFault (fun c => match c with
                        | OsRemoveAll path => Some (PathError "unlinkat" path "permission denied")
                        | _ => None
                        end).

Definition writeFails : Env :=
  withOsFault (fun c => match c with
                        | FileWrite name _ => Some (PathError "write" name "no space left on device")
                        | _ => None
                        end).

Definition openFails : Env :=
  withOsFault (fun c => match c with
                        | OsOpen name => Some (PathError "open" name "too many open files")
                        | _ => None
                        end).

Definition hello : list Byte.byte := bytes_of_string "hello".

(** base64("hello") for bucket/"greeting.txt" *)
Definition greeting : UploadFileData.t :=
  UploadFileData.mk "bucket" "text/plain" "greeting.txt" "aGVsbG8=".

Definition bogus : UploadFileData.t :=
  UploadFileData.mk "bucket" "application/x-bogus-unregistered" "greeting.txt" "aGVsbG8=".

Definition noContentType : UploadFileData.t :=
  UploadFileData.mk "bucket" "" "greeting.txt" "aGVsbG8=".

(** A store whose bucket ["bucket"] holds ["a.txt"] and ["greeting.txt"]. *)
Definition stocked : World :=
  mkWorld {[ "bucket" := {[ "a.txt" := mkObject hello "text/plain";
                            "greeting.txt" := mkObject hello "text/plain" ]} ]}
          ∅ 0 [].

Definition deleteAB : DeleteFileData.t :=
  DeleteFileData.mk "bucket" ["a.txt"; "b.txt"].

Definition deleteABC : DeleteFileData.t :=
  DeleteFileData.mk "bucket" ["a.txt"; "b.txt"; "c.txt"].

Definition download : DownloadFileRequest.t :=
  DownloadFileRequest.mk "bucket" "a.txt".

(** The upload call and the calls of a run of UploadFile on [greeting] in
    an empty world. *)
Definition greetingInput : PutObjectInput.t :=
  PutObjectInput.mk "bucket" "greeting.txt" "text/plain" hello.


End Scenario.

(* ===================================================================== *)
(** * Basic facts about the calls *)
(* ===================================================================== *)

Section Calls.
Context (env : Env) (s : s3Service).

(** A head request never changes the store. *)
Lemma s3Step_HeadObject_store st bucket key :
  snd (s3Step env (HeadObjectCall bucket key) st) = st.
Proof.
  unfold s3Step. destruct key; [reflexivity |].
  destruct (s3Fault env _); [reflexivity |].
  destruct (st !! bucket ≫= _); reflexivity.
Qed.

Lemma s3Step_HeadBucket_store st bucket :
  snd (s3Step env (HeadBucketCall bucket) st) = st.
Proof.
  unfold s3Step.
  destruct (s3Fault env _); [reflexivity |].
  destruct (st !! bucket); reflexivity.
Qed.

Lemma s3Do_trace c w : trace (snd (s3Do env c w)) = trace w ++ [S3Event c].
Proof. unfold s3Do. destruct (s3Step env c (store w)); reflexivity. Qed.

Lemma s3Do_files c w : files (snd (s3Do env c w)) = files w.
Proof. unfold s3Do. destruct (s3Step env c (store w)); reflexivity. Qed.

Lemma osDo_trace c w : trace (snd (osDo env c w)) = trace w ++ [OsEvent c].
Proof. unfold osDo. destruct (osStep env c (files w)); reflexivity. Qed.

Lemma osDo_store c w : store (snd (osDo env c w)) = store w.
Proof. unfold osDo. destruct (osStep env c (files w)); reflexivity. Qed.

(** The world after a probe: the call is logged, nothing else changes. *)
Lemma isFileExist_world bucketName filename w :
  snd (isFileExist env s bucketName filename w)
  = logged (probeEvent bucketName filename) w.
Proof.
  unfold isFileExist, s3Do, logged, probeEvent.
  pose proof (s3Step_HeadObject_store (store w) bucketName filename) as Hst.
  destruct (s3Step env _ (store w)) as [[err|] st]; simpl in Hst; subst st.
  - destruct (asResponseError err) as [status|]; [| reflexivity].
    destruct (decide (status = StatusNotFound)); reflexivity.
  - reflexivity.
Qed.

Lemma isExistBucket_world bucketName w :
  snd (isExistBucket env s bucketName w)
  = logged (S3Event (HeadBucketCall bucketName)) w.
Proof.
  unfold isExistBucket, s3Do, logged.
  pose proof (s3Step_HeadBucket_store (store w) bucketName) as Hst.
  destruct (s3Step env _ (store w)) as [[err|] st]; simpl in Hst; subst st.
  - destruct (asAPIError err) as [[|]|]; reflexivity.
  - reflexivity.
Qed.

(** The answer of a probe depends on the world through the store only. *)
Lemma isFileExist_answer bucketName filename w1 w2 :
  store w1 = store w2 →
  fst (isFileExist env s bucketName filename w1)
  = fst (isFileExist env s bucketName filename w2).
Proof.
  intros Hst. unfold isFileExist, s3Do. rewrite Hst.
  destruct (s3Step env _ (store w2)) as [[err|] st]; [| reflexivity].
  destruct (asResponseError err) as [status|]; [| reflexivity].
  destruct (decide (status = StatusNotFound)); reflexivity.
Qed.


(** Without a fault of its own, the object probe tells whether the key is
    in the bucket of the store. *)
Lemma isFileExist_store bucketName filename w :
  filename ≠ "" →
  s3Fault env (HeadObjectCall bucketName filename) = None →
  fst (isFileExist env s bucketName filename w)
  = (bool_decide (is_Some (store w !! bucketName ≫= (.!! filename))), None).
Proof.
  intros Hne Hf. unfold isFileExist, s3Do, s3Step.
  destruct filename as [|c filename]; [congruence |]. rewrite Hf.
  destruct (store w !! bucketName ≫= _) as [o|]; reflexivity.
Qed.

(** The probe of the empty name is refused by the client. *)
Lemma isFileExist_empty_key bucketName w :
  fst (isFileExist env s bucketName "" w) = (false, Some (SdkErr emptyKey)).
Proof. reflexivity. Qed.

Lemma isExistBucket_store bucketName w :
  s3Fault env (HeadBucketCall bucketName) = None →
  fst (isExistBucket env s bucketName w)
  = (bool_decide (is_Some (store w !! bucketName)), None).
Proof.
  intros Hf. unfold isExistBucket, s3Do, s3Step. rewrite Hf.
  destruct (store w !! bucketName) as [o|]; reflexivity.
Qed.

End Calls.

(* ===================================================================== *)
(** * Validation gates *)
(* ===================================================================== *)

(** C2. A request with a missing required field (UploadFile: empty
    filename, payload or bucket name; DeleteFile: empty filename list or
    empty bucket name; CreateBucket: empty name) fails with an
    InvalidArgument error, and the world returned is the world received: its
    trace has no new call, so the store was not contacted. *)
Theorem missing_field_fails_before_any_call (env : Env) (s : s3Service) (w : World) :
  (∀ data,
      UploadFileData.Filename data = ""
      ∨ UploadFileData.Base64Encoding data = ""
      ∨ UploadFileData.BucketName data = "" →
      ∃ err, UploadFile env s data w = (("", Some err), w) ∧ InvalidArgument err)
  ∧ (∀ data,
      DeleteFileData.Filename data = [] ∨ DeleteFileData.BucketName data = "" →
      ∃ err, DeleteFile env s data w = (Some err, w) ∧ InvalidArgument err)
  ∧ (∃ err, CreateBucket env s "" w = (Some err, w) ∧ InvalidArgument err).
Proof.
  unfold InvalidArgument. split; [| split].
  - intros data H. unfold UploadFile, validateUploadFile.
    destruct (decide (UploadFileData.Filename data = "")); [eauto |].
    destruct (decide (UploadFileData.Base64Encoding data = "")); [eauto 6 |].
    destruct (decide (UploadFileData.BucketName data = "")); [eauto 6 |].
    tauto.
  - intros data H. unfold DeleteFile, validateDeleteFile.
    destruct (decide (length (DeleteFileData.Filename data) = 0%nat)) as [|Hlen]; [eauto |].
    destruct (decide (DeleteFileData.BucketName data = "")); [eauto 6 |].
    destruct H as [H | H]; [| tauto].
    rewrite H in Hlen. simpl in Hlen. congruence.
  - unfold CreateBucket. simpl. eauto 6.
Qed.

Lemma missing_field_fails_before_any_call_witness :
  (∃ err, UploadFile Scenario.quiet Scenario.svc
            (UploadFileData.mk "bucket" "text/plain" "greeting.txt" "") Scenario.stocked
          = (("", Some err), Scenario.stocked) ∧ InvalidArgument err)
  ∧ (∃ err, DeleteFile Scenario.quiet Scenario.svc
              (DeleteFileData.mk "bucket" []) Scenario.stocked
            = (Some err, Scenario.stocked) ∧ InvalidArgument err).
Proof.
  destruct (missing_field_fails_before_any_call Scenario.quiet Scenario.svc Scenario.stocked)
    as (HU & HD & _).
  split.
  - apply HU. right. left. reflexivity.
  - apply HD. left. reflexivity.
Defined.

(** C9. Validation of a download request: an empty bucket name or an empty
    filename gives an InvalidArgument error; otherwise a bucket probe that
    answers false gives [ErrBucketNotFound]; otherwise a file probe that
    answers false gives [ErrFileNotFound]; otherwise the validation
    succeeds. *)
Theorem validateDownloadFile_cascade (env : Env) (s : s3Service)
  (data : DownloadFileRequest.t) (w : World) :
  let bucketName := DownloadFileRequest.BucketName data in
  let filename := DownloadFileRequest.Filename data in
  let probedBucket := isExistBucket env s bucketName w in
  let probedFile := isFileExist env s bucketName filename (snd probedBucket) in
  (bucketName = "" ∨ filename = "" →
     ∃ err, validateDownloadFile env s data w = (Some err, w) ∧ InvalidArgument err)
  ∧ (bucketName ≠ "" → filename ≠ "" →
     (fst probedBucket = (false, None) →
        fst (validateDownloadFile env s data w) = Some ErrBucketNotFound)
     ∧ (fst probedBucket = (true, None) → fst probedFile = (false, None) →
        fst (validateDownloadFile env s data w) = Some ErrFileNotFound)
     ∧ (fst probedBucket = (true, None) → fst probedFile = (true, None) →
        fst (validateDownloadFile env s data w) = None)).
Proof.
  intros bucketName filename probedBucket probedFile.
  unfold validateDownloadFile. fold bucketName filename.
  split.
  - intros H. unfold InvalidArgument.
    destruct (decide (bucketName = "")); [eauto 6 |].
    destruct (decide (filename = "")); [eauto 6 | tauto].
  - intros Hb Hf.
    destruct (decide (bucketName = "")); [tauto |].
    destruct (decide (filename = "")); [tauto |].
    subst probedFile. fold probedBucket.
    destruct probedBucket as [[isExist err] w1]. simpl.
    repeat split.
    + intros [= -> ->]. reflexivity.
    + intros [= -> ->] H2.
      destruct (isFileExist env s bucketName filename w1) as [[isExist' err'] w2].
      simpl in H2. injection H2 as -> ->. reflexivity.
    + intros [= -> ->] H2.
      destruct (isFileExist env s bucketName filename w1) as [[isExist' err'] w2].
      simpl in H2. injection H2 as -> ->. reflexivity.
Qed.

Lemma validateDownloadFile_cascade_witness :
  fst (validateDownloadFile Scenario.quiet Scenario.svc
         (DownloadFileRequest.mk "bucket" "b.txt") Scenario.stocked)
  = Some ErrFileNotFound
  ∧ fst (validateDownloadFile Scenario.quiet Scenario.svc
           (DownloadFileRequest.mk "other" "a.txt") Scenario.stocked)
    = Some ErrBucketNotFound
  ∧ fst (validateDownloadFile Scenario.quiet Scenario.svc
           Scenario.download Scenario.stocked)
    = None.
Proof.
  split; [| split].
  - apply (validateDownloadFile_cascade Scenario.quiet Scenario.svc
             (DownloadFileRequest.mk "bucket" "b.txt") Scenario.stocked);
      [discriminate | discriminate | reflexivity | reflexivity].
  - apply (validateDownloadFile_cascade Scenario.quiet Scenario.svc
             (DownloadFileRequest.mk "other" "a.txt") Scenario.stocked);
      [discriminate | discriminate | reflexivity].
  - apply (validateDownloadFile_cascade Scenario.quiet Scenario.svc
             Scenario.download Scenario.stocked);
      [discriminate | discriminate | reflexivity | reflexivity].
Defined.

(** The three outcomes of the object probe: found; a response with status
    404 is the answer false without error; every other failure is
    returned. *)
Lemma isFileExist_outcomes (env : Env) (s : s3Service) (bucketName filename : string)
  (w : World) :
  match fst (s3Do env (HeadObjectCall bucketName filename) w) with
  | None => fst (isFileExist env s bucketName filename w) = (true, None)
  | Some err =>
    if decide (asResponseError err = Some StatusNotFound)
    then fst (isFileExist env s bucketName filename w) = (false, None)
    else fst (isFileExist env s bucketName filename w) = (false, Some (SdkErr err))
  end.
Proof.
  unfold isFileExist.
  destruct (s3Do env _ w) as [[err|] w1]; simpl; [| reflexivity].
  destruct (asResponseError err) as [status|].
  - destruct (decide (status = StatusNotFound)) as [->|Hne].
    + rewrite decide_True by reflexivity. reflexivity.
    + rewrite decide_False by congruence. reflexivity.
  - rewrite decide_False by discriminate. reflexivity.
Qed.

(** The bucket probe: found; an API error of type NotFound is the answer
    false without error; any other API error is returned.  An error that is
    not an API error leaves the [if errors.As] block and reaches the final
    [return true, nil]. *)
Lemma isExistBucket_outcomes (env : Env) (s : s3Service) (bucketName : string)
  (w : World) :
  match fst (s3Do env (HeadBucketCall bucketName) w) with
  | None => fst (isExistBucket env s bucketName w) = (true, None)
  | Some err =>
    match asAPIError err with
    | Some TypesNotFound => fst (isExistBucket env s bucketName w) = (false, None)
    | Some OtherAPIError =>
      fst (isExistBucket env s bucketName w) = (false, Some (SdkErr err))
    | None => fst (isExistBucket env s bucketName w) = (true, None)
    end
  end.
Proof.
  unfold isExistBucket.
  destruct (s3Do env _ w) as [[err|] w1]; simpl; [| reflexivity].
  destruct (asAPIError err) as [[|]|]; reflexivity.
Qed.

(** C6, at the failing input.  The store is unreachable, so both head
    requests fail with a transport error, which is not an API error.  The
    object probe returns the error; the bucket probe answers
    [(true, nil)]: the bucket is reported to exist and the error is lost. *)
Theorem isExistBucket_loses_transport_error :
  fst (s3Do Scenario.storeUnreachable (HeadBucketCall "bucket") Scenario.emptyWorld)
  = Some Scenario.connectionRefused
  ∧ fst (isExistBucket Scenario.storeUnreachable Scenario.svc "bucket" Scenario.emptyWorld)
    = (true, None)
  ∧ fst (isFileExist Scenario.storeUnreachable Scenario.svc "bucket" "a.txt"
           Scenario.emptyWorld)
    = (false, Some (SdkErr Scenario.connectionRefused)).
Proof. repeat split. Qed.

(** C7. When the request passes the field and content-type gates and the
    existence probe answers that the target name is in the bucket, UploadFile
    fails with an AlreadyExists error; the world afterwards differs from the
    world before by the logged probe only: no file was staged and no
    transfer was made. *)
Theorem UploadFile_existing_target (env : Env) (s : s3Service)
  (data : UploadFileData.t) (w : World) :
  reachesProbe data →
  fst (isFileExist env s (UploadFileData.BucketName data)
                         (UploadFileData.Filename data) w) = (true, None) →
  ∃ err,
    UploadFile env s data w
    = (("", Some err),
       logged (probeEvent (UploadFileData.BucketName data)
                          (UploadFileData.Filename data)) w)
    ∧ AlreadyExists err.
Proof.
  intros (Hf & Hp & Hb & Hm) Hprobe.
  unfold UploadFile, validateUploadFile.
  rewrite !decide_False by assumption. rewrite Hm.
  pose proof (isFileExist_world env s (UploadFileData.BucketName data)
                (UploadFileData.Filename data) w) as Hw.
  destruct (isFileExist env s _ _ w) as [[fileExist err] w1].
  simpl in Hprobe, Hw. injection Hprobe as -> ->. subst w1.
  eexists. split; [reflexivity |].
  unfold AlreadyExists. eauto.
Qed.

Lemma UploadFile_existing_target_witness :
  ∃ err,
    UploadFile Scenario.quiet Scenario.svc Scenario.greeting Scenario.stocked
    = (("", Some err), logged (probeEvent "bucket" "greeting.txt") Scenario.stocked)
    ∧ AlreadyExists err.
Proof.
  apply (UploadFile_existing_target Scenario.quiet Scenario.svc
           Scenario.greeting Scenario.stocked).
  - repeat split; discriminate.
  - reflexivity.
Defined.

(** C5, as stated, fails: the content type
    ["application/x-bogus-unregistered"] is no registered MIME type, and
    the upload of a request that declares it succeeds. *)
Lemma unregistered_content_type_is_accepted :
  Mime.ExtensionsByType_err (UploadFileData.ContentType Scenario.bogus) = None
  ∧ fst (UploadFile Scenario.quiet Scenario.svc Scenario.bogus Scenario.emptyWorld)
    = ("https://bucket.s3.amazonaws.com/greeting.txt", None).
Proof. split; reflexivity. Qed.

Section MediaTypes.
Import GoStrings.

Lemma takeWhile_all {A} (p : A → bool) (l : list A) :
  Forall (fun x => p x = true) l → takeWhile p l = l.
Proof. induction 1 as [|x l Hx _ IH]; simpl; [reflexivity | now rewrite Hx, IH]. Qed.

Lemma dropWhile_all {A} (p : A → bool) (l : list A) :
  Forall (fun x => p x = true) l → dropWhile p l = [].
Proof. induction 1 as [|x l Hx _ IH]; simpl; [reflexivity | now rewrite Hx]. Qed.

Lemma takeWhile_app_all {A} (p : A → bool) (l k : list A) (x : A) :
  Forall (fun y => p y = true) l → p x = false →
  takeWhile p (l ++ x :: k) = l.
Proof.
  intros Hl Hx. induction Hl as [|y l Hy _ IH]; simpl; [now rewrite Hx |].
  now rewrite Hy, IH.
Qed.

Lemma dropWhile_app_all {A} (p : A → bool) (l k : list A) (x : A) :
  Forall (fun y => p y = true) l → p x = false →
  dropWhile p (l ++ x :: k) = x :: k.
Proof.
  intros Hl Hx. induction Hl as [|y l Hy _ IH]; simpl; [now rewrite Hx |].
  now rewrite Hy.
Qed.

Lemma isTokenChar_plain c : Mime.isTokenChar c = true → plain c.
Proof.
  destruct c as [[] [] [] [] [] [] [] []]; vm_compute; intros H;
    try discriminate H; repeat split; discriminate.
Qed.

Lemma isTokenChar_toLowerChar c :
  Mime.isTokenChar c = true → Mime.isTokenChar (toLowerChar c) = true.
Proof.
  destruct c as [[] [] [] [] [] [] [] []]; vm_compute; intros H;
    try discriminate H; reflexivity.
Qed.

Lemma plain_toLowerChar c : plain c → plain (toLowerChar c).
Proof.
  unfold plain.
  destruct c as [[] [] [] [] [] [] [] []]; vm_compute; intros (H1 & H2 & H3);
    try discriminate; repeat split; discriminate.
Qed.

Lemma ToLower_plain (l : list ascii) :
  Forall (fun c => (code c < 128)%N) l → ToLower l = map toLowerChar l.
Proof.
  induction 1 as [|c l Hc Hl IH]; [reflexivity |].
  assert (H196 : (code c =? 196)%N = false) by (apply N.eqb_neq; lia).
  assert (H226 : (code c =? 226)%N = false) by (apply N.eqb_neq; lia).
  simpl. destruct l as [|d [|e l]]; rewrite ?H196, ?H226; simpl;
    simpl in IH; now rewrite <- ?IH.
Qed.

Lemma TrimLeftSpace_plain c l : plain c → TrimLeftSpace (c :: l) = c :: l.
Proof.
  intros (Hc & Hs & _). simpl. rewrite Hs.
  assert (H2 : ∀ d, isSpace2 c d = false).
  { intros d. unfold isSpace2.
    replace (code c =? 194)%N with false by (symmetry; apply N.eqb_neq; lia).
    reflexivity. }
  assert (H3 : ∀ d e, isSpace3 c d e = false).
  { intros d e. unfold isSpace3.
    replace (code c =? 225)%N with false by (symmetry; apply N.eqb_neq; lia).
    replace (code c =? 226)%N with false by (symmetry; apply N.eqb_neq; lia).
    replace (code c =? 227)%N with false by (symmetry; apply N.eqb_neq; lia).
    reflexivity. }
  destruct l as [|d [|e l]]; rewrite ?H2, ?H3; reflexivity.
Qed.

Lemma trimLeftSpaceRev_plain c r : plain c → trimLeftSpaceRev (c :: r) = c :: r.
Proof.
  intros (Hc & Hs & _). simpl. rewrite Hs.
  assert (H2 : ∀ d, isSpace2 d c = false).
  { intros d. unfold isSpace2.
    replace (code c =? 133)%N with false by (symmetry; apply N.eqb_neq; lia).
    replace (code c =? 160)%N with false by (symmetry; apply N.eqb_neq; lia).
    apply andb_false_r. }
  assert (H3 : ∀ e d, isSpace3 e d c = false).
  { intros e d. unfold isSpace3.
    replace (code c =? 128)%N with false by (symmetry; apply N.eqb_neq; lia).
    replace (128 <=? code c)%N with false by (symmetry; apply N.leb_gt; lia).
    replace (code c =? 168)%N with false by (symmetry; apply N.eqb_neq; lia).
    replace (code c =? 169)%N with false by (symmetry; apply N.eqb_neq; lia).
    replace (code c =? 175)%N with false by (symmetry; apply N.eqb_neq; lia).
    replace (code c =? 159)%N with false by (symmetry; apply N.eqb_neq; lia).
    simpl. now rewrite !andb_false_r. }
  destruct r as [|d [|e r]]; rewrite ?H2, ?H3; reflexivity.
Qed.

(** A media type made of a type token, a slash and a subtype token parses,
    in any case of the letters and whether or not it is registered. *)
Lemma typeAndSubtype_parses (contentType : string) :
  typeAndSubtype contentType → Mime.ExtensionsByType_err contentType = None.
Proof.
  intros (typ & subtype & (Htne & Htyp) & (Hsne & Hsub) & Hlist).
  unfold Mime.ExtensionsByType_err, Mime.ParseMediaType_err. rewrite Hlist.
  assert (Hplain : Forall plain (typ ++ "/"%char :: subtype)).
  { apply Forall_app. split; [| constructor].
    - eapply Forall_impl; [exact Htyp |]. apply isTokenChar_plain.
    - repeat split; vm_compute; congruence.
    - eapply Forall_impl; [exact Hsub |]. apply isTokenChar_plain. }
  rewrite takeWhile_all, dropWhile_all;
    try (eapply Forall_impl; [exact Hplain |]; intros c (_ & _ & ->); reflexivity).
  rewrite ToLower_plain by (eapply Forall_impl; [exact Hplain |]; intros c Hc; apply Hc).
  rewrite map_app. simpl map.
  set (typ' := map toLowerChar typ). set (subtype' := map toLowerChar subtype).
  assert (Htyp' : Forall (fun c => Mime.isTokenChar c = true) typ').
  { apply Forall_map. eapply Forall_impl; [exact Htyp |]. apply isTokenChar_toLowerChar. }
  assert (Hsub' : Forall (fun c => Mime.isTokenChar c = true) subtype').
  { apply Forall_map. eapply Forall_impl; [exact Hsub |]. apply isTokenChar_toLowerChar. }
  assert (Htne' : typ' ≠ []) by (subst typ'; destruct typ; [congruence | discriminate]).
  assert (Hsne' : subtype' ≠ [])
    by (subst subtype'; destruct subtype; [congruence | discriminate]).
  clearbody typ' subtype'.
  change (toLowerChar "/") with "/"%char.
  destruct typ' as [|t typ'']; [congruence |].
  assert (Htrim : TrimSpace ((t :: typ'') ++ "/"%char :: subtype')
                  = (t :: typ'') ++ "/"%char :: subtype').
  { unfold TrimSpace. simpl app.
    rewrite TrimLeftSpace_plain by (apply isTokenChar_plain; now inversion Htyp').
    change (t :: typ'' ++ "/"%char :: subtype')
      with ((t :: typ'') ++ "/"%char :: subtype').
    rewrite rev_app_distr. simpl rev at 1.
    destruct (rev subtype') as [|x r] eqn:Er.
    { apply (f_equal (@rev ascii)) in Er. rewrite rev_involutive in Er.
      simpl in Er. congruence. }
    assert (Hx : Mime.isTokenChar x = true).
    { assert (Hin : In x (rev subtype')) by (rewrite Er; now left).
      apply in_rev in Hin. rewrite List.Forall_forall in Hsub'. now apply Hsub'. }
    simpl app. rewrite trimLeftSpaceRev_plain by now apply isTokenChar_plain.
    assert (Hs : subtype' = rev (x :: r)) by (rewrite <- Er; now rewrite rev_involutive).
    rewrite Hs. simpl. rewrite !rev_app_distr. simpl. rewrite rev_involutive.
    simpl. now rewrite <- !app_assoc. }
  rewrite Htrim.
  unfold Mime.checkMediaTypeDisposition, Mime.consumeToken.
  rewrite takeWhile_app_all, dropWhile_app_all by (assumption || reflexivity).
  simpl negb. cbv iota.
  rewrite takeWhile_all, dropWhile_all by assumption.
  destruct subtype' as [|u subtype'']; [congruence |].
  reflexivity.
Qed.

End MediaTypes.

(** C5, amended.  The content-type gate of UploadFile is the error of
    [mime.ExtensionsByType], which is the error of parsing the media type.
    A request with its required fields whose content type does not parse
    fails with the parse error, before any call to the store and before
    staging.  A content type made of a type token, a slash and a subtype
    token passes the gate whether or not it is registered: the validation
    goes on to the existence probe, and its outcome is the outcome of the
    probe. *)
Theorem UploadFile_content_type_gate (env : Env) (s : s3Service)
  (data : UploadFileData.t) (w : World) :
  let bucketName := UploadFileData.BucketName data in
  let filename := UploadFileData.Filename data in
  filename ≠ "" →
  UploadFileData.Base64Encoding data ≠ "" →
  bucketName ≠ "" →
  (∀ err,
      Mime.ExtensionsByType_err (UploadFileData.ContentType data) = Some err →
      UploadFile env s data w = (("", Some err), w))
  ∧ (typeAndSubtype (UploadFileData.ContentType data) →
     validateUploadFile env s data w
     = (match fst (isFileExist env s bucketName filename w) with
        | (_, Some err) => Some err
        | (true, None) =>
          Some (ErrorString ("file " +:+ filename +:+ " already exist on bucket "
                             +:+ bucketName))
        | (false, None) => None
        end,
        logged (probeEvent bucketName filename) w)).
Proof.
  intros bucketName filename Hf Hp Hb. split.
  - intros err Hm. unfold UploadFile, validateUploadFile.
    rewrite !decide_False by assumption. rewrite Hm. reflexivity.
  - intros Hct. unfold validateUploadFile.
    rewrite !decide_False by assumption.
    rewrite (typeAndSubtype_parses _ Hct).
    pose proof (isFileExist_world env s bucketName filename w) as Hw.
    fold bucketName filename.
    destruct (isFileExist env s bucketName filename w) as [[fileExist err] w1].
    simpl in Hw. subst w1. simpl. destruct err, fileExist; reflexivity.
Qed.

Lemma UploadFile_content_type_gate_witness :
  UploadFile Scenario.quiet Scenario.svc Scenario.noContentType Scenario.emptyWorld
  = (("", Some (errors_New "mime: no media type")), Scenario.emptyWorld)
  ∧ validateUploadFile Scenario.quiet Scenario.svc Scenario.bogus Scenario.emptyWorld
    = (None, logged (probeEvent "bucket" "greeting.txt") Scenario.emptyWorld).
Proof.
  split.
  - apply (UploadFile_content_type_gate Scenario.quiet Scenario.svc
             Scenario.noContentType Scenario.emptyWorld); [discriminate .. | reflexivity].
  - apply (UploadFile_content_type_gate Scenario.quiet Scenario.svc
             Scenario.bogus Scenario.emptyWorld); [discriminate .. |].
    exists (list_ascii_of_string "application"),
           (list_ascii_of_string "x-bogus-unregistered").
    repeat split; try discriminate; repeat constructor.
Defined.

(* ===================================================================== *)
(** * The name of the staged file *)
(* ===================================================================== *)

Section Paths.
Import GoStrings.

Lemma list_ascii_of_string_app (a b : string) :
  list_ascii_of_string (a +:+ b) = list_ascii_of_string a ++ list_ascii_of_string b.
Proof. induction a as [|c a IH]; simpl; [reflexivity | now rewrite IH]. Qed.

Lemma string_app_assoc (a b c : string) : (a +:+ b) +:+ c = a +:+ (b +:+ c).
Proof.
  induction a as [|x a IH]; [reflexivity |].
  change (String x ((a +:+ b) +:+ c) = String x (a +:+ b +:+ c)).
  now rewrite IH.
Qed.

Lemma dropWhile_app {A} (p : A → bool) (l k : list A) :
  Exists (fun x => p x = false) l →
  dropWhile p (l ++ k) = dropWhile p l ++ k.
Proof.
  induction l as [|x l IH]; intros H.
  - inversion H.
  - simpl. destruct (p x) eqn:Hx; [| reflexivity].
    apply IH. inversion H; subst; [congruence | assumption].
Qed.

Lemma takeWhile_app_stop {A} (p : A → bool) (l k : list A) (x : A) :
  p x = false →
  takeWhile p (l ++ x :: k) = takeWhile p l.
Proof.
  intros Hx. induction l as [|y l IH]; simpl.
  - now rewrite Hx.
  - destruct (p y); [now rewrite IH | reflexivity].
Qed.

Lemma dropWhile_Exists {A} (p : A → bool) (l : list A) :
  Exists (fun x => p x = false) l →
  ∃ x l', dropWhile p l = x :: l' ∧ p x = false.
Proof.
  induction l as [|y l IH]; intros H.
  - inversion H.
  - simpl. destruct (p y) eqn:Hy; [| eauto].
    apply IH. inversion H; subst; [congruence | assumption].
Qed.

(** The last element of a path whose last part has an element is the last
    element of that part. *)
Lemma filepath_Base_last (dir name : string) :
  hasElement name →
  filepath_Base (dir +:+ "/" +:+ name) = filepath_Base name.
Proof.
  intros H. unfold hasElement in H.
  assert (Hrev : Exists (fun c => isPathSeparator c = false)
                        (rev (list_ascii_of_string name))).
  { now apply List.Exists_rev. }
  unfold filepath_Base.
  destruct name as [|c0 name0] eqn:En; [inversion H |]. rewrite <- En in *.
  destruct (dir +:+ "/" +:+ name) as [|d0 rest0] eqn:Ed.
  - apply (f_equal list_ascii_of_string) in Ed.
    rewrite !list_ascii_of_string_app in Ed.
    destruct (list_ascii_of_string dir); discriminate.
  - rewrite <- Ed. clear Ed.
    rewrite !list_ascii_of_string_app. simpl (list_ascii_of_string "/").
    rewrite rev_app_distr. simpl (rev (_ :: _)).
    rewrite rev_app_distr. simpl (rev [_]). rewrite <- app_assoc.
    rewrite dropWhile_app by assumption.
    destruct (dropWhile_Exists _ _ Hrev) as (x & l' & Hd & Hx).
    rewrite Hd. simpl ((x :: l') ++ _).
    change (x :: l' ++ "/"%char :: rev (list_ascii_of_string dir))
      with ((x :: l') ++ "/"%char :: rev (list_ascii_of_string dir)).
    rewrite takeWhile_app_stop by reflexivity.
    reflexivity.
Qed.

End Paths.

(** C4, on the code.  The path built from the temporary directory, the
    fresh identifier and the filename is cut down to its last element by
    [filepath.Base]: for a filename with an element, the staged path is the
    last element of the filename, whatever the identifier and the temporary
    directory are.  Two calls with the same filename stage at the same
    path. *)
Theorem stagedPath_is_Base_of_Filename (env : Env) (data : UploadFileData.t) (w : World) :
  hasElement (UploadFileData.Filename data) →
  fst (stagedPath env data w) = filepath_Base (UploadFileData.Filename data).
Proof.
  intros H. unfold stagedPath, uuid_NewV4, Sprintf_path3. simpl.
  rewrite <- (filepath_Base_last (TempDir env +:+ "/" +:+ NewV4 env (uuidCount w))
                                 (UploadFileData.Filename data) H).
  now rewrite !string_app_assoc.
Qed.

Lemma stagedPath_is_Base_of_Filename_witness :
  fst (stagedPath Scenario.quiet Scenario.greeting Scenario.emptyWorld) = "greeting.txt"
  ∧ fst (stagedPath Scenario.removalFails Scenario.greeting Scenario.stocked) = "greeting.txt".
Proof.
  split.
  - apply (stagedPath_is_Base_of_Filename Scenario.quiet Scenario.greeting Scenario.emptyWorld).
    unfold hasElement. apply Exists_cons_hd. reflexivity.
  - apply (stagedPath_is_Base_of_Filename Scenario.removalFails Scenario.greeting Scenario.stocked).
    unfold hasElement. apply Exists_cons_hd. reflexivity.
Defined.

(* ===================================================================== *)
(** * UploadFile, step by step *)
(* ===================================================================== *)

Section Upload.
Context (env : Env) (s : s3Service) (data : UploadFileData.t).

Abbreviation bucketName := (UploadFileData.BucketName data).
Abbreviation filename := (UploadFileData.Filename data).

(** A validation that passes has made the probe and nothing else. *)
Lemma validateUploadFile_passes w w1 :
  validateUploadFile env s data w = (None, w1) →
  reachesProbe data
  ∧ fst (isFileExist env s bucketName filename w) = (false, None)
  ∧ w1 = logged (probeEvent bucketName filename) w.
Proof.
  unfold validateUploadFile, reachesProbe.
  destruct (decide (filename = "")); [discriminate |].
  destruct (decide (UploadFileData.Base64Encoding data = "")); [discriminate |].
  destruct (decide (bucketName = "")); [discriminate |].
  destruct (Mime.ExtensionsByType_err _); [discriminate |].
  pose proof (isFileExist_world env s bucketName filename w) as Hw.
  destruct (isFileExist env s bucketName filename w) as [[fileExist err] w2].
  simpl in Hw. subst w2.
  destruct err; [discriminate |]. destruct fileExist; [discriminate |].
  intros [= <-]. auto.
Qed.

(** A validation that fails has made at most the probe. *)
Lemma validateUploadFile_fails w w1 err :
  validateUploadFile env s data w = (Some err, w1) →
  w1 = w ∨ w1 = logged (probeEvent bucketName filename) w.
Proof.
  unfold validateUploadFile.
  destruct (decide (filename = "")); [intros [= _ <-]; auto |].
  destruct (decide (UploadFileData.Base64Encoding data = "")); [intros [= _ <-]; auto |].
  destruct (decide (bucketName = "")); [intros [= _ <-]; auto |].
  destruct (Mime.ExtensionsByType_err _); [intros [= _ <-]; auto |].
  pose proof (isFileExist_world env s bucketName filename w) as Hw.
  destruct (isFileExist env s bucketName filename w) as [[fileExist err'] w2].
  simpl in Hw. subst w2.
  destruct err'; [intros [= _ <-]; auto |].
  destruct fileExist; [intros [= _ <-]; auto | discriminate].
Qed.

Lemma stagedPath_world w :
  snd (stagedPath env data w)
  = mkWorld (store w) (files w) (S (uuidCount w)) (trace w).
Proof. reflexivity. Qed.

(** A staging that succeeds has decoded the payload, created the file and
    written the decoded bytes to it. *)
Lemma createFile_succeeds fileBase64 pathFile w w1 :
  createFile env fileBase64 pathFile w = (None, w1) →
  ∃ dec,
    Base64.DecodeString fileBase64 = (dec, None)
    ∧ w1 = mkWorld (store w) (<[pathFile := dec]> (<[pathFile := []]> (files w)))
                   (uuidCount w)
                   (trace w ++ [OsEvent (OsCreate pathFile);
                                OsEvent (FileWrite pathFile dec)]).
Proof.
  unfold createFile, osDo, osStep.
  destruct (Base64.DecodeString fileBase64) as [dec [err|]]; [discriminate |].
  destruct (osFault env (OsCreate pathFile)); [discriminate |]. simpl.
  destruct (osFault env (FileWrite pathFile dec)); [discriminate |]. simpl.
  intros [= <-]. exists dec. rewrite <- app_assoc. auto.
Qed.


Lemma removeFile_world pathFile w :
  snd (removeFile env pathFile w)
  = mkWorld (store w) (snd (osStep env (OsRemoveAll pathFile) (files w)))
            (uuidCount w) (trace w ++ [OsEvent (OsRemoveAll pathFile)]).
Proof.
  unfold removeFile, osDo.
  destruct (osStep env _ (files w)) as [[err|] fs]; reflexivity.
Qed.

(** A removal that the environment lets through leaves no file at the
    path. *)
Lemma removeFile_removes pathFile w :
  osFault env (OsRemoveAll pathFile) = None →
  files (snd (removeFile env pathFile w)) !! pathFile = None.
Proof.
  intros Hf. rewrite removeFile_world. unfold osStep. rewrite Hf. simpl.
  apply lookup_delete_eq.
Qed.

(** The transfer part calls no removal: its calls are the opening of the
    staged file and calls to the store. *)
Lemma transfer_makes_no_removal pathFile w :
  ∃ tr,
    trace (snd (transfer env s data pathFile w)) = trace w ++ tr
    ∧ ∀ path, ¬ In (OsEvent (OsRemoveAll path)) tr.
Proof.
  unfold transfer, isExistBucket, CreateBucket, osDo, s3Do, osStep.
  assert (Hleaf : ∀ (l : list Event),
             Forall (fun ev => ∀ path, ev ≠ OsEvent (OsRemoveAll path)) l →
             ∃ tr, trace w ++ l = trace w ++ tr
                   ∧ ∀ path, ¬ In (OsEvent (OsRemoveAll path)) tr).
  { intros l Hl. exists l. split; [reflexivity |]. intros path Hin.
    rewrite Forall_forall in Hl. apply list_elem_of_In in Hin.
    exact (Hl _ Hin path eq_refl). }
  destruct (osFault env (OsOpen pathFile)).
  { simpl. apply Hleaf. repeat constructor; discriminate. }
  destruct (files w !! pathFile) eqn:Hfile.
  2:{ simpl. apply Hleaf. repeat constructor; discriminate. }
  simpl. rewrite Hfile. simpl.
  destruct (s3Step env (HeadBucketCall bucketName) (store w)) as [[headErr|] st];
    [destruct (asAPIError headErr) as [[|]|] |]; simpl.
  - destruct (decide (bucketName = "")); simpl.
    { rewrite <- !app_assoc. apply Hleaf. repeat constructor; discriminate. }
    destruct (s3Step env (CreateBucketCall bucketName (region s)) st)
      as [[createErr|] st1]; simpl.
    { rewrite <- !app_assoc. apply Hleaf. repeat constructor; discriminate. }
    destruct (s3Step env _ st1) as [[upErr|] st2]; simpl;
      rewrite <- !app_assoc; apply Hleaf; repeat constructor; discriminate.
  - rewrite <- !app_assoc. apply Hleaf. repeat constructor; discriminate.
  - destruct (s3Step env _ st) as [[upErr|] st2]; simpl;
      rewrite <- !app_assoc; apply Hleaf; repeat constructor; discriminate.
  - destruct (s3Step env _ st) as [[upErr|] st2]; simpl;
      rewrite <- !app_assoc; apply Hleaf; repeat constructor; discriminate.
Qed.

End Upload.

(** C1, as stated, fails: the payload is staged and transferred, the
    removal of the staged file is refused by the file system; UploadFile
    logs that and returns the locator, and the staged file, which was not
    there before the call, remains. *)
Lemma staged_file_survives_refused_removal :
  let run := UploadFile Scenario.removalFails Scenario.svc Scenario.greeting
                        Scenario.emptyWorld in
  files Scenario.emptyWorld !! "greeting.txt" = None
  ∧ fst run = ("https://bucket.s3.amazonaws.com/greeting.txt", None)
  ∧ In (OsEvent (OsCreate "greeting.txt")) (trace (snd run))
  ∧ files (snd run) !! "greeting.txt" = Some Scenario.hello.
Proof.
  vm_compute. repeat split. right. left. reflexivity.
Qed.

(** The staged file is also left behind when it was created and the write
    to it fails: [createFile] returns the error and UploadFile returns
    before the removal is deferred. *)
Lemma staged_file_survives_failed_write :
  let run := UploadFile Scenario.writeFails Scenario.svc Scenario.greeting
                        Scenario.emptyWorld in
  fst run = ("", Some (PathError "write" "greeting.txt" "no space left on device"))
  ∧ trace (snd run)
    = [probeEvent "bucket" "greeting.txt";
       OsEvent (OsCreate "greeting.txt");
       OsEvent (FileWrite "greeting.txt" Scenario.hello)]
  ∧ files (snd run) !! "greeting.txt" = Some [].
Proof. vm_compute. repeat split. Qed.

(** C1, amended.  When the request is valid and staging has succeeded, the
    staged file exists, and whatever the result of the transfer part is
    (the staged file cannot be opened, the bucket probe or the bucket
    creation fails, the transfer fails, the transfer succeeds), UploadFile
    returns that result after one more call, the removal of the staged
    path.  That removal is the only one: no call before it is a removal.
    When the file system does not refuse the removal, no file is left at
    the staged path. *)
Theorem UploadFile_removes_staged_file (env : Env) (s : s3Service)
  (data : UploadFileData.t) (w w1 w2 w3 : World) (pathFile : string) :
  validateUploadFile env s data w = (None, w1) →
  stagedPath env data w1 = (pathFile, w2) →
  createFile env (UploadFileData.Base64Encoding data) pathFile w2 = (None, w3) →
  ∃ result w4 w' tr,
    is_Some (files w3 !! pathFile)
    ∧ transfer env s data pathFile w3 = (result, w4)
    ∧ UploadFile env s data w = (result, w')
    ∧ trace w' = trace w4 ++ [OsEvent (OsRemoveAll pathFile)]
    ∧ trace w' = trace w ++ tr ++ [OsEvent (OsRemoveAll pathFile)]
    ∧ (∀ path, ¬ In (OsEvent (OsRemoveAll path)) tr)
    ∧ (osFault env (OsRemoveAll pathFile) = None → files w' !! pathFile = None).
Proof.
  intros Hv Hp Hc.
  destruct (transfer_makes_no_removal env s data pathFile w3) as (tr' & Htr' & Hnone).
  destruct (transfer env s data pathFile w3) as [result w4] eqn:Ht.
  simpl in Htr'.
  pose proof Hc as Hstaged.
  apply createFile_succeeds in Hstaged as (dec & _ & Hw3).
  exists result, w4, (snd (removeFile env pathFile w4)),
    ([probeEvent (UploadFileData.BucketName data) (UploadFileData.Filename data);
      OsEvent (OsCreate pathFile); OsEvent (FileWrite pathFile dec)] ++ tr').
  split.
  { rewrite Hw3. simpl. rewrite lookup_insert_eq. eauto. }
  split; [reflexivity |]. split; [| split; [| split; [| split]]].
  - unfold UploadFile. rewrite Hv, Hp, Hc, Ht.
    destruct (removeFile env pathFile w4); reflexivity.
  - rewrite removeFile_world. reflexivity.
  - rewrite removeFile_world. simpl. rewrite Htr', Hw3. simpl.
    pose proof (stagedPath_world env data w1) as Hw2. rewrite Hp in Hw2.
    simpl in Hw2. rewrite Hw2. simpl.
    apply validateUploadFile_passes in Hv as (_ & _ & ->). simpl.
    now rewrite <- !app_assoc.
  - intros path [Hin|[Hin|[Hin|Hin]]]; try discriminate.
    exact (Hnone path Hin).
  - apply removeFile_removes.
Qed.

Lemma UploadFile_removes_staged_file_witness :
  files (snd (UploadFile Scenario.quiet Scenario.svc Scenario.greeting
                Scenario.emptyWorld)) !! "greeting.txt" = None
  ∧ files (snd (UploadFile Scenario.transferFails Scenario.svc Scenario.greeting
                  Scenario.emptyWorld)) !! "greeting.txt" = None
  ∧ files (snd (UploadFile Scenario.openFails Scenario.svc Scenario.greeting
                  Scenario.emptyWorld)) !! "greeting.txt" = None.
Proof.
  split; [| split].
  - destruct (UploadFile_removes_staged_file Scenario.quiet Scenario.svc
                Scenario.greeting Scenario.emptyWorld
                (snd (validateUploadFile Scenario.quiet Scenario.svc Scenario.greeting
                        Scenario.emptyWorld))
                (snd (stagedPath Scenario.quiet Scenario.greeting
                        (snd (validateUploadFile Scenario.quiet Scenario.svc
                                Scenario.greeting Scenario.emptyWorld))))
                (snd (createFile Scenario.quiet "aGVsbG8=" "greeting.txt"
                        (snd (stagedPath Scenario.quiet Scenario.greeting
                                (snd (validateUploadFile Scenario.quiet Scenario.svc
                                        Scenario.greeting Scenario.emptyWorld))))))
                "greeting.txt" eq_refl eq_refl eq_refl)
      as (result & w4 & w' & tr & _ & _ & -> & _ & _ & _ & Hgone).
    apply Hgone. reflexivity.
  - destruct (UploadFile_removes_staged_file Scenario.transferFails Scenario.svc
                Scenario.greeting Scenario.emptyWorld
                (snd (validateUploadFile Scenario.transferFails Scenario.svc
                        Scenario.greeting Scenario.emptyWorld))
                (snd (stagedPath Scenario.transferFails Scenario.greeting
                        (snd (validateUploadFile Scenario.transferFails Scenario.svc
                                Scenario.greeting Scenario.emptyWorld))))
                (snd (createFile Scenario.transferFails "aGVsbG8=" "greeting.txt"
                        (snd (stagedPath Scenario.transferFails Scenario.greeting
                                (snd (validateUploadFile Scenario.transferFails
                                        Scenario.svc Scenario.greeting
                                        Scenario.emptyWorld))))))
                "greeting.txt" eq_refl eq_refl eq_refl)
      as (result & w4 & w' & tr & _ & _ & -> & _ & _ & _ & Hgone).
    apply Hgone. reflexivity.
  - destruct (UploadFile_removes_staged_file Scenario.openFails Scenario.svc
                Scenario.greeting Scenario.emptyWorld
                (snd (validateUploadFile Scenario.openFails Scenario.svc
                        Scenario.greeting Scenario.emptyWorld))
                (snd (stagedPath Scenario.openFails Scenario.greeting
                        (snd (validateUploadFile Scenario.openFails Scenario.svc
                                Scenario.greeting Scenario.emptyWorld))))
                (snd (createFile Scenario.openFails "aGVsbG8=" "greeting.txt"
                        (snd (stagedPath Scenario.openFails Scenario.greeting
                                (snd (validateUploadFile Scenario.openFails
                                        Scenario.svc Scenario.greeting
                                        Scenario.emptyWorld))))))
                "greeting.txt" eq_refl eq_refl eq_refl)
      as (result & w4 & w' & tr & _ & _ & -> & _ & _ & _ & Hgone).
    apply Hgone. reflexivity.
Defined.

(* ===================================================================== *)
(** * The order of the steps of UploadFile *)
(* ===================================================================== *)

Section Order.
Context (env : Env) (s : s3Service) (data : UploadFileData.t).

Abbreviation bucketName := (UploadFileData.BucketName data).
Abbreviation filename := (UploadFileData.Filename data).



End Order.



(* ===================================================================== *)
(** * DeleteFile *)
(* ===================================================================== *)

Section Delete.
Context (env : Env) (s : s3Service) (bucketName : string).

Lemma answers_store w1 w2 filename :
  store w1 = store w2 →
  answers env s bucketName w1 filename → answers env s bucketName w2 filename.
Proof.
  unfold answers. intros H.
  now rewrite (isFileExist_answer env s bucketName filename w1 w2 H).
Qed.

Lemma existing_store w1 w2 filenames :
  store w1 = store w2 →
  existing env s bucketName w1 filenames = existing env s bucketName w2 filenames.
Proof.
  intros H. unfold existing. induction filenames as [|f fs IH]; simpl; [reflexivity |].
  now rewrite IH, (isFileExist_answer env s bucketName f w1 w2 H).
Qed.

(** The loop over the requested names when every probe answers: all names
    are probed in order, and the names collected are those whose probe
    answered true. *)
Lemma probeFiles_all filenames : ∀ fileExist w,
  Forall (answers env s bucketName w) filenames →
  probeFiles env s bucketName filenames fileExist w
  = (inl (fileExist ++ existing env s bucketName w filenames),
     mkWorld (store w) (files w) (uuidCount w)
             (trace w ++ map (probeEvent bucketName) filenames)).
Proof.
  induction filenames as [|f fs IH]; intros fileExist w Hall.
  - simpl. rewrite !app_nil_r. destruct w; reflexivity.
  - apply Forall_cons in Hall as [Hf Hfs]. simpl.
    pose proof (isFileExist_world env s bucketName f w) as Hw.
    unfold answers in Hf.
    destruct (isFileExist env s bucketName f w) as [[isExist err] w1].
    simpl in Hw, Hf. subst w1 err.
    rewrite IH.
    2:{ eapply Forall_impl; [exact Hfs |]. intros x. now apply answers_store. }
    rewrite (existing_store (logged (probeEvent bucketName f) w) w fs eq_refl).
    simpl. rewrite <- !app_assoc. simpl.
    destruct isExist; [rewrite <- app_assoc |]; reflexivity.
Qed.

(** The loop stops at the first probe that returns an error: the names
    before it have been probed, the names after it have not. *)
Lemma probeFiles_first_error pre filename post err : ∀ fileExist w,
  Forall (answers env s bucketName w) pre →
  snd (fst (isFileExist env s bucketName filename w)) = Some err →
  probeFiles env s bucketName (pre ++ filename :: post) fileExist w
  = (inr err,
     mkWorld (store w) (files w) (uuidCount w)
             (trace w ++ map (probeEvent bucketName) (pre ++ [filename]))).
Proof.
  induction pre as [|f fs IH]; intros fileExist w Hall Herr.
  - simpl.
    pose proof (isFileExist_world env s bucketName filename w) as Hw.
    destruct (isFileExist env s bucketName filename w) as [[isExist err'] w1].
    simpl in Hw, Herr. subst w1 err'. reflexivity.
  - apply Forall_cons in Hall as [Hf Hfs]. simpl.
    pose proof (isFileExist_world env s bucketName f w) as Hw.
    pose proof (isFileExist_answer env s bucketName filename
                  (logged (probeEvent bucketName f) w) w eq_refl) as Hsame.
    unfold answers in Hf.
    destruct (isFileExist env s bucketName f w) as [[isExist err'] w1].
    simpl in Hw, Hf. subst w1 err'.
    rewrite IH.
    + simpl. now rewrite <- !app_assoc.
    + eapply Forall_impl; [exact Hfs |]. intros x. now apply answers_store.
    + now rewrite Hsame.
Qed.

End Delete.

(** DeleteFile when every probe answers: the result and the store are
    those of the batch call, made on the store of the beginning. *)
Lemma DeleteFile_batch_all (env : Env) (s : s3Service) (data : DeleteFileData.t)
  (w : World) :
  let bucketName := DeleteFileData.BucketName data in
  let filenames := DeleteFileData.Filename data in
  let call := DeleteObjectsCall bucketName
                (map ObjectIdentifier.mk (existing env s bucketName w filenames)) in
  validateDeleteFile s data = None →
  Forall (answers env s bucketName w) filenames →
  ∃ w',
    DeleteFile env s data w = (SdkErr <$> fst (s3Step env call (store w)), w')
    ∧ store w' = snd (s3Step env call (store w)).
Proof.
  intros bucketName filenames call Hvalid Hall.
  unfold DeleteFile. rewrite Hvalid. fold bucketName filenames.
  rewrite (probeFiles_all env s bucketName filenames [] w Hall). simpl app.
  fold call. unfold s3Do. simpl store.
  destruct (s3Step env call (store w)) as [[err|] st]; simpl;
    (eexists; split; reflexivity).
Qed.

(** C3. For a valid request whose probes all answer, DeleteFile probes the
    requested names in order and then makes one batch-delete call; the
    objects of that call are the names whose probe answered true, in
    request order.  A name that is not there causes no error: the error
    returned, if any, is the error of the batch call.  When no name is
    there the batch call is made with an empty object list. *)
Theorem DeleteFile_batch (env : Env) (s : s3Service) (data : DeleteFileData.t)
  (w : World) :
  let bucketName := DeleteFileData.BucketName data in
  let filenames := DeleteFileData.Filename data in
  let objectIds := map ObjectIdentifier.mk (existing env s bucketName w filenames) in
  validateDeleteFile s data = None →
  Forall (answers env s bucketName w) filenames →
  ∃ w',
    DeleteFile env s data w
    = (SdkErr <$> fst (s3Step env (DeleteObjectsCall bucketName objectIds) (store w)), w')
    ∧ trace w' = trace w ++ map (probeEvent bucketName) filenames
                         ++ [S3Event (DeleteObjectsCall bucketName objectIds)]
    ∧ (existing env s bucketName w filenames = [] →
       last (trace w') = Some (S3Event (DeleteObjectsCall bucketName []))).
Proof.
  intros bucketName filenames objectIds Hvalid Hall.
  unfold DeleteFile. rewrite Hvalid. fold bucketName filenames.
  rewrite (probeFiles_all env s bucketName filenames [] w Hall). simpl app.
  fold objectIds. unfold s3Do. simpl store.
  destruct (s3Step env (DeleteObjectsCall bucketName objectIds) (store w))
    as [[err|] st] eqn:Hstep; simpl;
    (eexists; split; [reflexivity |]; simpl; split;
     [now rewrite <- app_assoc
     | intros Hnone; subst objectIds; rewrite Hnone; simpl; apply last_snoc]).
Qed.

Lemma DeleteFile_batch_witness :
  ∃ w',
    DeleteFile Scenario.quiet Scenario.svc Scenario.deleteAB Scenario.stocked = (None, w')
    ∧ trace w'
      = [probeEvent "bucket" "a.txt"; probeEvent "bucket" "b.txt";
         S3Event (DeleteObjectsCall "bucket" [ObjectIdentifier.mk "a.txt"])].
Proof.
  destruct (DeleteFile_batch Scenario.quiet Scenario.svc Scenario.deleteAB Scenario.stocked)
    as (w' & Hrun & Htrace & _).
  - reflexivity.
  - repeat constructor.
  - exists w'. split; [exact Hrun | exact Htrace].
Defined.

(** C10. When the probe of one of the requested names returns an error,
    and the probes of the names before it answer, DeleteFile returns that
    error; it has probed the names up to that one, in order, and made no
    other call: the store and the files are those before the call. *)
Theorem DeleteFile_probe_error (env : Env) (s : s3Service) (data : DeleteFileData.t)
  (w : World) (pre post : list string) (filename : string) (err : GoError) :
  let bucketName := DeleteFileData.BucketName data in
  bucketName ≠ "" →
  DeleteFileData.Filename data = pre ++ filename :: post →
  Forall (answers env s bucketName w) pre →
  snd (fst (isFileExist env s bucketName filename w)) = Some err →
  DeleteFile env s data w
  = (Some err,
     mkWorld (store w) (files w) (uuidCount w)
             (trace w ++ map (probeEvent bucketName) (pre ++ [filename]))).
Proof.
  intros bucketName Hb Hnames Hpre Herr.
  unfold DeleteFile, validateDeleteFile. fold bucketName. rewrite Hnames.
  rewrite decide_False.
  2:{ rewrite length_app. simpl. lia. }
  rewrite decide_False by assumption.
  now rewrite (probeFiles_first_error env s bucketName pre filename post err [] w Hpre Herr).
Qed.

Lemma DeleteFile_probe_error_witness :
  DeleteFile Scenario.secondProbeDenied Scenario.svc Scenario.deleteABC Scenario.stocked
  = (Some (SdkErr Scenario.accessDenied),
     mkWorld (store Scenario.stocked) (files Scenario.stocked) 0
             [probeEvent "bucket" "a.txt"; probeEvent "bucket" "b.txt"]).
Proof.
  apply (DeleteFile_probe_error Scenario.secondProbeDenied Scenario.svc Scenario.deleteABC
           Scenario.stocked ["a.txt"] ["c.txt"] "b.txt" (SdkErr Scenario.accessDenied)).
  - discriminate.
  - reflexivity.
  - repeat constructor.
  - reflexivity.
Defined.

(* ===================================================================== *)
(** * Runs in an environment without faults *)
(* ===================================================================== *)

Section FaultFree.
Context (env : Env) (s : s3Service).
Hypothesis s3_quiet : ∀ c, s3Fault env c = None.
Hypothesis os_quiet : ∀ c, osFault env c = None.

Lemma validateUploadFile_fault_free (data : UploadFileData.t) (w : World) :
  reachesProbe data →
  store w !! UploadFileData.BucketName data ≫= (.!! UploadFileData.Filename data) = None →
  validateUploadFile env s data w
  = (None, logged (probeEvent (UploadFileData.BucketName data)
                              (UploadFileData.Filename data)) w).
Proof.
  intros (Hf & Hp & Hb & Hm) Hnew.
  unfold validateUploadFile. rewrite !decide_False by assumption. rewrite Hm.
  pose proof (isFileExist_world env s (UploadFileData.BucketName data)
                (UploadFileData.Filename data) w) as Hw.
  pose proof (isFileExist_store env s (UploadFileData.BucketName data)
                (UploadFileData.Filename data) w Hf (s3_quiet _)) as Hans.
  destruct (isFileExist env s _ _ w) as [[fileExist err] w1].
  simpl in Hw, Hans. rewrite Hnew in Hans. injection Hans as -> ->. now subst w1.
Qed.

Lemma createFile_fault_free (fileBase64 pathFile : string) (w : World)
  (dec : list Byte.byte) :
  Base64.DecodeString fileBase64 = (dec, None) →
  createFile env fileBase64 pathFile w
  = (None,
     mkWorld (store w) (<[pathFile := dec]> (<[pathFile := []]> (files w)))
             (uuidCount w)
             (trace w ++ [OsEvent (OsCreate pathFile); OsEvent (FileWrite pathFile dec)])).
Proof.
  intros Hdec. unfold createFile, osDo, osStep. rewrite Hdec.
  rewrite os_quiet. simpl. rewrite os_quiet. simpl. now rewrite <- app_assoc.
Qed.

Lemma transfer_fault_free (data : UploadFileData.t) (pathFile : string) (w : World)
  (content : list Byte.byte) :
  UploadFileData.BucketName data ≠ "" →
  files w !! pathFile = Some content →
  ∃ w',
    transfer env s data pathFile w
    = ((s3Location env (UploadFileData.BucketName data) (UploadFileData.Filename data),
        None), w')
    ∧ store w' !! UploadFileData.BucketName data ≫= (.!! UploadFileData.Filename data)
      = Some (mkObject content (UploadFileData.ContentType data))
    ∧ files w' = files w.
Proof.
  intros Hb Hfile.
  unfold transfer, osDo, osStep. rewrite os_quiet, Hfile. simpl. rewrite Hfile. simpl.
  unfold isExistBucket, s3Do. simpl store.
  unfold s3Step at 1. rewrite s3_quiet.
  destruct (store w !! UploadFileData.BucketName data) as [objs|] eqn:Hbucket; simpl.
  - unfold s3Step. rewrite s3_quiet. simpl. rewrite Hbucket. simpl.
    eexists. split; [reflexivity |]. simpl. split; [| reflexivity].
    rewrite lookup_insert_eq. simpl. apply lookup_insert_eq.
  - unfold CreateBucket. rewrite decide_False by assumption.
    unfold s3Do. simpl store. unfold s3Step at 1. rewrite s3_quiet, Hbucket. simpl.
    unfold s3Step. rewrite s3_quiet. simpl. rewrite lookup_insert_eq. simpl.
    eexists. split; [reflexivity |]. simpl. split; [| reflexivity].
    rewrite lookup_insert_eq. simpl. apply lookup_insert_eq.
Qed.

(** A valid upload of a new name succeeds: the locator of the store is
    returned, the bucket holds the decoded payload under the name with the
    declared content type, and the staged file is gone. *)
Lemma UploadFile_fault_free (data : UploadFileData.t) (w : World) (dec : list Byte.byte) :
  let bucketName := UploadFileData.BucketName data in
  let filename := UploadFileData.Filename data in
  reachesProbe data →
  store w !! bucketName ≫= (.!! filename) = None →
  Base64.DecodeString (UploadFileData.Base64Encoding data) = (dec, None) →
  ∃ w',
    UploadFile env s data w = ((s3Location env bucketName filename, None), w')
    ∧ store w' !! bucketName ≫= (.!! filename)
      = Some (mkObject dec (UploadFileData.ContentType data))
    ∧ files w' !! fst (stagedPath env data w) = None.
Proof.
  intros bucketName filename Hreach Hnew Hdec.
  unfold UploadFile.
  rewrite (validateUploadFile_fault_free data w Hreach Hnew).
  destruct (stagedPath env data (logged _ w)) as [pathFile w2] eqn:Hp.
  assert (Hpath : fst (stagedPath env data w) = pathFile).
  { unfold stagedPath, uuid_NewV4 in Hp |- *. simpl in Hp |- *. congruence. }
  rewrite Hpath.
  rewrite (createFile_fault_free _ pathFile w2 dec Hdec).
  destruct Hreach as (_ & _ & Hb & _).
  destruct (transfer_fault_free data pathFile
              (mkWorld (store w2) (<[pathFile := dec]> (<[pathFile := []]> (files w2)))
                       (uuidCount w2)
                       (trace w2 ++ [OsEvent (OsCreate pathFile);
                                     OsEvent (FileWrite pathFile dec)]))
              dec Hb) as (w4 & -> & Hobj & _).
  { simpl. apply lookup_insert_eq. }
  pose proof (removeFile_world env pathFile w4) as Hrm.
  pose proof (removeFile_removes env pathFile w4 (os_quiet _)) as Hgone.
  destruct (removeFile env pathFile w4) as [rmErr w5]. simpl in Hrm, Hgone.
  exists w5. split; [reflexivity |]. split; [| exact Hgone].
  subst w5. exact Hobj.
Qed.

Lemma foldr_delete_lookup (objs : gmap string Object) (keys : list string) (key : string) :
  foldr delete objs keys !! key
  = if bool_decide (key ∈ keys) then None else objs !! key.
Proof.
  induction keys as [|k keys IH]; simpl.
  - reflexivity.
  - destruct (decide (k = key)) as [->|Hne].
    + rewrite lookup_delete_eq. rewrite bool_decide_eq_true_2 by left. reflexivity.
    + rewrite lookup_delete_ne by assumption. rewrite IH.
      replace (bool_decide (key ∈ k :: keys)) with (bool_decide (key ∈ keys));
        [reflexivity |].
      apply bool_decide_ext. rewrite elem_of_cons.
      split; [auto | intros [E|E]; [congruence | assumption]].
Qed.

(** After a valid DeleteFile on a bucket of the store, none of the
    requested names is in the bucket, and the other names are untouched.
    The operation succeeds when one of the requested names was in the
    bucket; when none was, the client refuses the empty batch. *)
Lemma DeleteFile_fault_free (data : DeleteFileData.t) (w : World)
  (objs : gmap string Object) :
  let bucketName := DeleteFileData.BucketName data in
  validateDeleteFile s data = None →
  "" ∉ DeleteFileData.Filename data →
  store w !! bucketName = Some objs →
  ∃ w' objs',
    DeleteFile env s data w
    = (match existing env s bucketName w (DeleteFileData.Filename data) with
       | [] => Some (SdkErr missingObjects)
       | _ :: _ => None
       end, w')
    ∧ store w' !! bucketName = Some objs'
    ∧ ∀ key, objs' !! key
             = if bool_decide (key ∈ DeleteFileData.Filename data) then None
               else objs !! key.
Proof.
  intros bucketName Hvalid Hnames Hbucket.
  assert (Hanswer : ∀ key, key ∈ DeleteFileData.Filename data →
                           fst (isFileExist env s bucketName key w)
                           = (bool_decide (is_Some (objs !! key)), None)).
  { intros key Hkey. rewrite isFileExist_store; [| congruence | apply s3_quiet].
    rewrite Hbucket. reflexivity. }
  destruct (DeleteFile_batch_all env s data w) as (w' & Hrun & Hst).
  { exact Hvalid. }
  { apply Forall_forall. intros key Hkey. unfold answers.
    fold bucketName. now rewrite Hanswer. }
  fold bucketName in Hrun, Hst.
  assert (Hex : ∀ key,
             key ∈ existing env s bucketName w (DeleteFileData.Filename data)
             ↔ key ∈ DeleteFileData.Filename data ∧ is_Some (objs !! key)).
  { intros key. unfold existing. rewrite list_elem_of_In, filter_In, <- list_elem_of_In.
    split.
    - intros (Hkey & Htrue). split; [exact Hkey |].
      rewrite (Hanswer key Hkey) in Htrue. simpl in Htrue.
      now apply bool_decide_eq_true in Htrue.
    - intros (Hkey & Hsome). split; [exact Hkey |].
      rewrite (Hanswer key Hkey). simpl. now apply bool_decide_eq_true. }
  destruct (existing env s bucketName w (DeleteFileData.Filename data))
    as [|x l] eqn:Hexisting.
  - unfold s3Step in Hrun, Hst. simpl in Hrun, Hst.
    exists w', objs. split; [exact Hrun |]. split; [now rewrite Hst |].
    intros key. destruct (bool_decide (key ∈ DeleteFileData.Filename data)) eqn:Hin;
      [| reflexivity].
    apply bool_decide_eq_true in Hin.
    destruct (objs !! key) as [o|] eqn:Hkey; [| reflexivity].
    exfalso. assert (Hk : key ∈ @nil string) by (apply Hex; rewrite Hkey; eauto).
    inversion Hk.
  - unfold s3Step in Hrun, Hst. simpl map in Hrun, Hst. cbv iota in Hrun, Hst.
    rewrite s3_quiet, Hbucket in Hrun, Hst. simpl in Hrun, Hst.
    exists w'. eexists. split; [exact Hrun |]. split.
    { rewrite Hst. apply lookup_insert_eq. }
    intros key.
    replace (delete x (foldr delete objs
                         (map ObjectIdentifier.Key (map ObjectIdentifier.mk l))))
      with (foldr delete objs (x :: l))
      by (rewrite map_map; simpl; now rewrite map_id).
    rewrite foldr_delete_lookup.
    destruct (bool_decide (key ∈ DeleteFileData.Filename data)) eqn:Hin.
    + apply bool_decide_eq_true in Hin.
      destruct (objs !! key) as [o|] eqn:Hkey.
      * rewrite bool_decide_eq_true_2; [reflexivity |].
        apply Hex. rewrite Hkey. eauto.
      * destruct (bool_decide _); reflexivity.
    + apply bool_decide_eq_false in Hin.
      rewrite bool_decide_eq_false_2; [reflexivity |].
      intros H. apply Hin. now apply Hex in H as [H _].
Qed.

End FaultFree.

(* ===================================================================== *)
(** * Further properties: failures of validation and staging *)
(* ===================================================================== *)

Section Failures.
Context (env : Env) (s : s3Service) (data : UploadFileData.t).

Abbreviation bucketName := (UploadFileData.BucketName data).
Abbreviation filename := (UploadFileData.Filename data).

(** UploadFile after a validation that passed. *)
Lemma UploadFile_after_validation w w1 :
  validateUploadFile env s data w = (None, w1) →
  w1 = logged (probeEvent bucketName filename) w
  ∧ UploadFile env s data w
    = (let pathFile := fst (stagedPath env data w1) in
       let w2 := mkWorld (store w) (files w) (S (uuidCount w))
                         (trace w ++ [probeEvent bucketName filename]) in
       match createFile env (UploadFileData.Base64Encoding data) pathFile w2 with
       | (Some err, w3) => (("", Some err), w3)
       | (None, w3) =>
         (fst (transfer env s data pathFile w3),
          snd (removeFile env pathFile (snd (transfer env s data pathFile w3))))
       end).
Proof.
  intros Hv. unfold UploadFile. rewrite Hv.
  apply validateUploadFile_passes in Hv as (_ & _ & ->). split; [reflexivity |].
  unfold stagedPath, uuid_NewV4. simpl.
  destruct (createFile env _ _ _) as [[err|] w3]; [reflexivity |].
  destruct (transfer env s data _ w3) as [result w4]. simpl.
  destruct (removeFile env _ w4); reflexivity.
Qed.

(** A validation stopped by the existence probe. *)
Lemma validateUploadFile_probe_answer w :
  reachesProbe data →
  validateUploadFile env s data w
  = (match fst (isFileExist env s bucketName filename w) with
     | (_, Some err) => Some err
     | (true, None) =>
       Some (ErrorString ("file " +:+ filename +:+ " already exist on bucket "
                          +:+ bucketName))
     | (false, None) => None
     end,
     logged (probeEvent bucketName filename) w).
Proof.
  intros (Hf & Hp & Hb & Hm). unfold validateUploadFile.
  rewrite !decide_False by assumption. rewrite Hm.
  pose proof (isFileExist_world env s bucketName filename w) as Hw.
  destruct (isFileExist env s bucketName filename w) as [[fileExist err] w1].
  simpl in Hw. subst w1. simpl.
  destruct err, fileExist; reflexivity.
Qed.

End Failures.

(** X1. A payload that is not base64 is rejected after the validation and
    before any call to the file system: UploadFile returns the error of the
    decoder, the store and the files are untouched, and the only call made
    is the existence probe of the validation. *)
Theorem UploadFile_rejects_undecodable_payload (env : Env) (s : s3Service)
  (data : UploadFileData.t) (w w1 : World) (dec : list Byte.byte) (err : GoError) :
  validateUploadFile env s data w = (None, w1) →
  Base64.DecodeString (UploadFileData.Base64Encoding data) = (dec, Some err) →
  ∃ w',
    UploadFile env s data w = (("", Some err), w')
    ∧ store w' = store w
    ∧ files w' = files w
    ∧ trace w' = trace w ++ [probeEvent (UploadFileData.BucketName data)
                                        (UploadFileData.Filename data)].
Proof.
  intros Hv Hdec.
  destruct (UploadFile_after_validation env s data w w1 Hv) as (-> & ->).
  unfold createFile. rewrite Hdec. simpl.
  eexists. split; [reflexivity |]. repeat split.
Qed.

Lemma UploadFile_rejects_undecodable_payload_witness :
  ∃ w',
    UploadFile Scenario.quiet Scenario.svc
      (UploadFileData.mk "bucket" "text/plain" "greeting.txt" "aGVsbG8")
      Scenario.emptyWorld
    = (("", Some (CorruptInputError 4)), w')
    ∧ store w' = store Scenario.emptyWorld
    ∧ files w' = files Scenario.emptyWorld
    ∧ trace w' = trace Scenario.emptyWorld ++ [probeEvent "bucket" "greeting.txt"].
Proof.
  apply (UploadFile_rejects_undecodable_payload Scenario.quiet Scenario.svc
           (UploadFileData.mk "bucket" "text/plain" "greeting.txt" "aGVsbG8")
           Scenario.emptyWorld
           (logged (probeEvent "bucket" "greeting.txt") Scenario.emptyWorld)
           (bytes_of_string "hel")).
  - reflexivity.
  - reflexivity.
Defined.

(** X2. When the staged file has been created and the write of the decoded
    payload fails, UploadFile returns the error of the write; the removal
    of the staged file has not been deferred yet, so the last call of the
    operation is the write and the created file stays behind, empty. *)
Theorem UploadFile_failed_write_leaves_file (env : Env) (s : s3Service)
  (data : UploadFileData.t) (w w1 : World) (dec : list Byte.byte) (err : GoError) :
  let pathFile := fst (stagedPath env data w1) in
  validateUploadFile env s data w = (None, w1) →
  Base64.DecodeString (UploadFileData.Base64Encoding data) = (dec, None) →
  osFault env (OsCreate pathFile) = None →
  osFault env (FileWrite pathFile dec) = Some err →
  ∃ w',
    UploadFile env s data w = (("", Some err), w')
    ∧ files w' !! pathFile = Some []
    ∧ trace w' = trace w ++ [probeEvent (UploadFileData.BucketName data)
                                        (UploadFileData.Filename data);
                             OsEvent (OsCreate pathFile);
                             OsEvent (FileWrite pathFile dec)].
Proof.
  intros pathFile Hv Hdec Hcreate Hwrite.
  destruct (UploadFile_after_validation env s data w w1 Hv) as (Hw1 & ->).
  fold pathFile. cbv zeta.
  unfold createFile, osDo, osStep. rewrite Hdec, Hcreate. simpl. rewrite Hwrite. simpl.
  eexists. split; [reflexivity |]. simpl. split.
  - apply lookup_insert_eq.
  - now rewrite <- !app_assoc.
Qed.

Lemma UploadFile_failed_write_leaves_file_witness :
  ∃ w',
    UploadFile Scenario.writeFails Scenario.svc Scenario.greeting Scenario.emptyWorld
    = (("", Some (PathError "write" "greeting.txt" "no space left on device")), w')
    ∧ files w' !! "greeting.txt" = Some []
    ∧ trace w' = trace Scenario.emptyWorld
                 ++ [probeEvent "bucket" "greeting.txt";
                     OsEvent (OsCreate "greeting.txt");
                     OsEvent (FileWrite "greeting.txt" Scenario.hello)].
Proof.
  apply (UploadFile_failed_write_leaves_file Scenario.writeFails Scenario.svc
           Scenario.greeting Scenario.emptyWorld
           (logged (probeEvent "bucket" "greeting.txt") Scenario.emptyWorld)
           Scenario.hello).
  - reflexivity.
  - reflexivity.
  - reflexivity.
  - reflexivity.
Defined.

(** X3. When the existence probe of the validation fails with an error
    that is not a 404 response, UploadFile returns that error; nothing has
    been staged and no other call has been made. *)
Theorem UploadFile_returns_probe_error (env : Env) (s : s3Service)
  (data : UploadFileData.t) (w : World) (err : GoError) :
  reachesProbe data →
  snd (fst (isFileExist env s (UploadFileData.BucketName data)
                              (UploadFileData.Filename data) w)) = Some err →
  UploadFile env s data w
  = (("", Some err),
     logged (probeEvent (UploadFileData.BucketName data)
                        (UploadFileData.Filename data)) w).
Proof.
  intros Hreach Herr. unfold UploadFile.
  rewrite (validateUploadFile_probe_answer env s data w Hreach).
  destruct (fst (isFileExist env s _ _ w)) as [fileExist err'].
  simpl in Herr. subst err'. destruct fileExist; reflexivity.
Qed.

Lemma UploadFile_returns_probe_error_witness :
  UploadFile Scenario.storeUnreachable Scenario.svc Scenario.greeting Scenario.stocked
  = (("", Some (SdkErr Scenario.connectionRefused)),
     logged (probeEvent "bucket" "greeting.txt") Scenario.stocked).
Proof.
  apply (UploadFile_returns_probe_error Scenario.storeUnreachable Scenario.svc
           Scenario.greeting Scenario.stocked).
  - repeat split; discriminate.
  - reflexivity.
Defined.

(* ===================================================================== *)
(** * Further properties: what the operations leave alone *)
(* ===================================================================== *)

Section Frames.
Context (env : Env) (s : s3Service).

Lemma s3Do_store c w : store (snd (s3Do env c w)) = snd (s3Step env c (store w)).
Proof. unfold s3Do. destruct (s3Step env c (store w)); reflexivity. Qed.

Lemma osDo_files c w : files (snd (osDo env c w)) = snd (osStep env c (files w)).
Proof. unfold osDo. destruct (osStep env c (files w)); reflexivity. Qed.

(** The creation of a bucket adds no object and removes none. *)
Lemma s3Step_CreateBucket_objects st bucket loc (b k : string) :
  snd (s3Step env (CreateBucketCall bucket loc) st) !! b ≫= (.!! k) = st !! b ≫= (.!! k).
Proof.
  unfold s3Step. destruct (s3Fault env _); [reflexivity |].
  destruct (st !! bucket) eqn:Hbucket; [reflexivity |]. simpl.
  destruct (decide (bucket = b)) as [<-|Hne].
  - rewrite lookup_insert_eq, Hbucket. simpl. apply lookup_empty.
  - now rewrite lookup_insert_ne.
Qed.

(** An upload changes at most the object under its bucket and key. *)
Lemma s3Step_Upload_objects st input partSize (b k : string) :
  b ≠ PutObjectInput.Bucket input ∨ k ≠ PutObjectInput.Key input →
  snd (s3Step env (UploadCall input partSize) st) !! b ≫= (.!! k) = st !! b ≫= (.!! k).
Proof.
  intros Hother. unfold s3Step. destruct (s3Fault env _); [reflexivity |].
  destruct (st !! PutObjectInput.Bucket input) as [objs|] eqn:Hbucket; [| reflexivity].
  simpl. destruct (decide (PutObjectInput.Bucket input = b)) as [<-|Hne].
  - rewrite lookup_insert_eq, Hbucket. simpl.
    destruct Hother as [Hb|Hk]; [congruence |]. now rewrite lookup_insert_ne.
  - now rewrite lookup_insert_ne.
Qed.

Lemma foldr_delete_other (objs : gmap string Object) (keys : list string) (k : string) :
  k ∉ keys → foldr delete objs keys !! k = objs !! k.
Proof.
  induction keys as [|x keys IH]; intros Hk; simpl; [reflexivity |].
  apply not_elem_of_cons in Hk as [Hne Hk].
  rewrite lookup_delete_ne by congruence. now apply IH.
Qed.

(** A batch delete changes at most the objects it names. *)
Lemma s3Step_DeleteObjects_objects st bucket objects (b k : string) :
  b ≠ bucket ∨ k ∉ map ObjectIdentifier.Key objects →
  snd (s3Step env (DeleteObjectsCall bucket objects) st) !! b ≫= (.!! k)
  = st !! b ≫= (.!! k).
Proof.
  intros Hother. unfold s3Step. destruct objects as [|o objects]; [reflexivity |].
  destruct (s3Fault env _); [reflexivity |].
  destruct (st !! bucket) as [objs|] eqn:Hbucket; [| reflexivity].
  cbn [snd]. destruct (decide (bucket = b)) as [<-|Hne].
  - rewrite lookup_insert_eq, Hbucket. simpl.
    destruct Hother as [Hb|Hk]; [congruence |].
    now apply (foldr_delete_other objs (map ObjectIdentifier.Key (o :: objects))).
  - now rewrite lookup_insert_ne.
Qed.

Lemma CreateBucket_frame bucket w (b k : string) :
  store (snd (CreateBucket env s bucket w)) !! b ≫= (.!! k) = store w !! b ≫= (.!! k)
  ∧ files (snd (CreateBucket env s bucket w)) = files w.
Proof.
  unfold CreateBucket. destruct (decide (bucket = "")); [split; reflexivity |].
  pose proof (s3Do_store (CreateBucketCall bucket (region s)) w) as Hst.
  pose proof (s3Do_files env (CreateBucketCall bucket (region s)) w) as Hfs.
  destruct (s3Do env _ w) as [[err|] w1]; simpl in *;
    rewrite Hst, Hfs; split; auto using s3Step_CreateBucket_objects.
Qed.

Lemma createFile_frame fileBase64 pathFile w :
  store (snd (createFile env fileBase64 pathFile w)) = store w
  ∧ ∀ q, q ≠ pathFile →
         files (snd (createFile env fileBase64 pathFile w)) !! q = files w !! q.
Proof.
  unfold createFile, osDo, osStep.
  destruct (Base64.DecodeString fileBase64) as [dec [err|]]; [split; reflexivity |].
  destruct (osFault env (OsCreate pathFile)); simpl; [split; reflexivity |].
  destruct (osFault env (FileWrite pathFile dec)); simpl;
    (split; [reflexivity |]; intros q Hq; now rewrite ?lookup_insert_ne by congruence).
Qed.

Lemma removeFile_frame pathFile w :
  store (snd (removeFile env pathFile w)) = store w
  ∧ ∀ q, q ≠ pathFile → files (snd (removeFile env pathFile w)) !! q = files w !! q.
Proof.
  rewrite removeFile_world. simpl. split; [reflexivity |]. intros q Hq.
  unfold osStep. destruct (osFault env _); simpl; [reflexivity |].
  now rewrite lookup_delete_ne by congruence.
Qed.

(** The transfer part leaves the files alone and changes at most the
    object of the request. *)
Lemma transfer_frame (data : UploadFileData.t) pathFile w (b k : string) :
  (b ≠ UploadFileData.BucketName data ∨ k ≠ UploadFileData.Filename data →
   store (snd (transfer env s data pathFile w)) !! b ≫= (.!! k) = store w !! b ≫= (.!! k))
  ∧ files (snd (transfer env s data pathFile w)) = files w.
Proof.
  unfold transfer.
  pose proof (osDo_store env (OsOpen pathFile) w) as Hst1.
  pose proof (osDo_files (OsOpen pathFile) w) as Hfs1.
  assert (Hopen : snd (osStep env (OsOpen pathFile) (files w)) = files w).
  { unfold osStep. destruct (osFault env _); [reflexivity |].
    destruct (files w !! pathFile); reflexivity. }
  rewrite Hopen in Hfs1. clear Hopen.
  destruct (osDo env (OsOpen pathFile) w) as [[err|] w1]; simpl in Hst1, Hfs1.
  { simpl. rewrite Hst1, Hfs1. auto. }
  pose proof (isExistBucket_world env s (UploadFileData.BucketName data) w1) as Hw2.
  destruct (isExistBucket env s _ w1) as [[bucketExist err] w2]. simpl in Hw2. subst w2.
  destruct err as [err|].
  { simpl. rewrite Hst1, Hfs1. auto. }
  pose proof (CreateBucket_frame (UploadFileData.BucketName data)
                (logged (S3Event (HeadBucketCall (UploadFileData.BucketName data))) w1)
                b k) as (Hst3 & Hfs3).
  assert (Hprov : ∀ r,
             r = (if negb bucketExist
                  then CreateBucket env s (UploadFileData.BucketName data)
                         (logged (S3Event (HeadBucketCall (UploadFileData.BucketName data))) w1)
                  else (None,
                        logged (S3Event (HeadBucketCall (UploadFileData.BucketName data))) w1)) →
             store (snd r) !! b ≫= (.!! k) = store w !! b ≫= (.!! k)
             ∧ files (snd r) = files w).
  { intros r ->. destruct bucketExist; simpl.
    - rewrite Hst1, Hfs1. auto.
    - rewrite Hst3, Hfs3. simpl. rewrite Hst1, Hfs1. auto. }
  destruct (if negb bucketExist then _ else _) as [err w3].
  specialize (Hprov _ eq_refl) as (Hst & Hfs). simpl in Hst, Hfs.
  destruct err as [err|]; [simpl; rewrite Hfs; auto |].
  match goal with
  | |- context [s3Do env ?c w3] =>
    pose proof (s3Do_store c w3) as Hst4; pose proof (s3Do_files env c w3) as Hfs4;
    destruct (s3Do env c w3) as [[err|] w4]
  end; simpl in *; rewrite Hst4, Hfs4; (split; [| assumption]); intros Hother;
    rewrite s3Step_Upload_objects by exact Hother; exact Hst.
Qed.

(** The loop of DeleteFile changes neither the store nor the files, and
    collects only requested names. *)
Lemma probeFiles_frame bucketName filenames : ∀ fileExist w,
  store (snd (probeFiles env s bucketName filenames fileExist w)) = store w
  ∧ files (snd (probeFiles env s bucketName filenames fileExist w)) = files w
  ∧ ∀ l, fst (probeFiles env s bucketName filenames fileExist w) = inl l →
         ∀ x, x ∈ l → x ∈ fileExist ∨ x ∈ filenames.
Proof.
  induction filenames as [|f fs IH]; intros fileExist w; simpl.
  - repeat split. intros l [= <-] x Hx. now left.
  - pose proof (isFileExist_world env s bucketName f w) as Hw.
    destruct (isFileExist env s bucketName f w) as [[isExist err] w1].
    simpl in Hw. subst w1. destruct err as [err|]; simpl.
    + repeat split. discriminate.
    + destruct (IH (if isExist then fileExist ++ [f] else fileExist)
                   (logged (probeEvent bucketName f) w)) as (Hst & Hfs & Hsub).
      rewrite Hst, Hfs. repeat split. intros l Hl x Hx.
      destruct (Hsub l Hl x Hx) as [Hin|Hin].
      * destruct isExist; [| now left].
        apply elem_of_app in Hin as [Hin|Hin]; [now left |].
        apply list_elem_of_singleton in Hin as ->. right. left.
      * right. now right.
Qed.

End Frames.

(** X4. Whatever the environment does and however the operation ends,
    UploadFile changes at most one object of the store, the one under the
    bucket and key of the request, and at most one file, the one at the
    staged path: every other object and every other file is after the call
    what it was before. *)
Theorem UploadFile_frame (env : Env) (s : s3Service) (data : UploadFileData.t)
  (w : World) :
  let w' := snd (UploadFile env s data w) in
  (∀ b k,
      b ≠ UploadFileData.BucketName data ∨ k ≠ UploadFileData.Filename data →
      store w' !! b ≫= (.!! k) = store w !! b ≫= (.!! k))
  ∧ (∀ q, q ≠ fst (stagedPath env data w) → files w' !! q = files w !! q).
Proof.
  intros w'. subst w'. unfold UploadFile.
  destruct (validateUploadFile env s data w) as [[err|] w1] eqn:Hv.
  { apply validateUploadFile_fails in Hv as [-> | ->]; simpl; auto. }
  apply validateUploadFile_passes in Hv as (_ & _ & ->).
  unfold stagedPath, uuid_NewV4. simpl.
  set (pathFile := filepath_Base _).
  set (w2 := mkWorld _ _ _ _).
  destruct (createFile_frame env (UploadFileData.Base64Encoding data) pathFile w2)
    as (Hst3 & Hfs3).
  destruct (createFile env _ pathFile w2) as [[err|] w3]; simpl in Hst3, Hfs3.
  { simpl. rewrite Hst3. split; [auto |]. intros q Hq. now rewrite Hfs3. }
  assert (Hall : ∀ b k,
             (b ≠ UploadFileData.BucketName data ∨ k ≠ UploadFileData.Filename data →
              store (snd (transfer env s data pathFile w3)) !! b ≫= (.!! k)
              = store w !! b ≫= (.!! k))
             ∧ files (snd (transfer env s data pathFile w3)) = files w3).
  { intros b k. destruct (transfer_frame env s data pathFile w3 b k) as (Hst & Hfs).
    split; [| exact Hfs]. intros Hother. rewrite (Hst Hother), Hst3. reflexivity. }
  destruct (transfer env s data pathFile w3) as [result w4]. simpl in Hall.
  destruct (removeFile_frame env pathFile w4) as (Hst5 & Hfs5).
  destruct (removeFile env pathFile w4) as [rmErr w5]. simpl in *.
  split.
  - intros b k Hother. rewrite Hst5. now apply Hall.
  - intros q Hq. rewrite (Hfs5 q Hq).
    destruct (Hall "" "") as (_ & ->). now apply Hfs3.
Qed.

Lemma UploadFile_frame_witness :
  store (snd (UploadFile Scenario.quiet Scenario.svc
                (UploadFileData.mk "bucket" "text/plain" "b.txt" "aGVsbG8=")
                Scenario.stocked)) !! "bucket" ≫= (.!! "a.txt")
  = Some (mkObject Scenario.hello "text/plain").
Proof.
  destruct (UploadFile_frame Scenario.quiet Scenario.svc
              (UploadFileData.mk "bucket" "text/plain" "b.txt" "aGVsbG8=")
              Scenario.stocked) as (Hstore & _).
  rewrite (Hstore "bucket" "a.txt"); [reflexivity |]. right. discriminate.
Defined.

(** X5. Whatever the environment does and however the operation ends,
    DeleteFile leaves the files alone and removes no object but those
    under the requested names in the bucket of the request. *)
Theorem DeleteFile_frame (env : Env) (s : s3Service) (data : DeleteFileData.t)
  (w : World) :
  let w' := snd (DeleteFile env s data w) in
  files w' = files w
  ∧ ∀ b k,
      b ≠ DeleteFileData.BucketName data ∨ k ∉ DeleteFileData.Filename data →
      store w' !! b ≫= (.!! k) = store w !! b ≫= (.!! k).
Proof.
  intros w'. subst w'. unfold DeleteFile.
  destruct (validateDeleteFile s data); [split; reflexivity |].
  destruct (probeFiles_frame env s (DeleteFileData.BucketName data)
              (DeleteFileData.Filename data) [] w) as (Hst & Hfs & Hsub).
  destruct (probeFiles env s _ _ [] w) as [[fileExist|err] w1]; simpl in *.
  2:{ rewrite Hst, Hfs. auto. }
  match goal with
  | |- context [s3Do env ?c w1] =>
    pose proof (s3Do_store env c w1) as Hst2; pose proof (s3Do_files env c w1) as Hfs2;
    destruct (s3Do env c w1) as [[err|] w2]
  end; simpl in *; rewrite Hst2, Hfs2, Hst; (split; [assumption |]);
    intros b k Hother; apply s3Step_DeleteObjects_objects;
    (destruct Hother as [Hb|Hk]; [now left | right]);
    rewrite map_map, map_id; intros Hin;
    (destruct (Hsub fileExist eq_refl k Hin) as [Hnil|Hreq];
     [inversion Hnil | contradiction]).
Qed.

Lemma DeleteFile_frame_witness :
  store (snd (DeleteFile Scenario.quiet Scenario.svc Scenario.deleteAB Scenario.stocked))
    !! "bucket" ≫= (.!! "greeting.txt")
  = Some (mkObject Scenario.hello "text/plain").
Proof.
  destruct (DeleteFile_frame Scenario.quiet Scenario.svc Scenario.deleteAB Scenario.stocked)
    as (_ & Hstore).
  rewrite (Hstore "bucket" "greeting.txt"); [reflexivity |]. right.
  intros Hin. repeat (apply elem_of_cons in Hin as [Hin|Hin]; [discriminate |]).
  inversion Hin.
Defined.

(** X6. The validation of a download request only reads: it makes no
    call, or the bucket probe, or the bucket probe followed by the object
    probe, and the store and the files are after it what they were
    before. *)
Theorem validateDownloadFile_reads_only (env : Env) (s : s3Service)
  (data : DownloadFileRequest.t) (w : World) :
  let bucketName := DownloadFileRequest.BucketName data in
  let filename := DownloadFileRequest.Filename data in
  let w' := snd (validateDownloadFile env s data w) in
  store w' = store w
  ∧ files w' = files w
  ∧ (trace w' = trace w
     ∨ trace w' = trace w ++ [S3Event (HeadBucketCall bucketName)]
     ∨ trace w' = trace w ++ [S3Event (HeadBucketCall bucketName);
                              S3Event (HeadObjectCall bucketName filename)]).
Proof.
  intros bucketName filename w'. subst w'. unfold validateDownloadFile.
  fold bucketName filename.
  destruct (decide (bucketName = "")); [simpl; auto |].
  destruct (decide (filename = "")); [simpl; auto |].
  pose proof (isExistBucket_world env s bucketName w) as Hw1.
  destruct (isExistBucket env s bucketName w) as [[isExist err] w1].
  simpl in Hw1. subst w1.
  destruct err; [simpl; auto |]. destruct isExist; [| simpl; auto]. simpl.
  pose proof (isFileExist_world env s bucketName filename
                (logged (S3Event (HeadBucketCall bucketName)) w)) as Hw2.
  destruct (isFileExist env s bucketName filename _) as [[isExist err] w2].
  simpl in Hw2. subst w2.
  assert (Htrace : trace (logged (probeEvent bucketName filename)
                            (logged (S3Event (HeadBucketCall bucketName)) w))
                   = trace w ++ [S3Event (HeadBucketCall bucketName);
                                 S3Event (HeadObjectCall bucketName filename)]).
  { simpl. now rewrite <- app_assoc. }
  destruct err; [simpl; auto |]. destruct isExist; simpl; auto.
Qed.

(** X7. The validation of a download request returns the error of a
    failed probe as it is: the error of the bucket probe, after which the
    object is not probed, or else the error of the object probe. *)
Theorem validateDownloadFile_returns_probe_error (env : Env) (s : s3Service)
  (data : DownloadFileRequest.t) (w : World) (err : GoError) :
  let bucketName := DownloadFileRequest.BucketName data in
  let filename := DownloadFileRequest.Filename data in
  let probedBucket := isExistBucket env s bucketName w in
  let probedFile := isFileExist env s bucketName filename (snd probedBucket) in
  bucketName ≠ "" → filename ≠ "" →
  (snd (fst probedBucket) = Some err →
     validateDownloadFile env s data w = (Some err, snd probedBucket))
  ∧ (fst probedBucket = (true, None) → snd (fst probedFile) = Some err →
     validateDownloadFile env s data w = (Some err, snd probedFile)).
Proof.
  intros bucketName filename probedBucket probedFile Hb Hf.
  unfold validateDownloadFile. fold bucketName filename.
  rewrite !decide_False by assumption.
  subst probedFile. fold probedBucket.
  destruct probedBucket as [[isExist err1] w1]. simpl. split.
  - intros ->. reflexivity.
  - intros [= -> ->]. simpl.
    destruct (isFileExist env s bucketName filename w1) as [[isExist err2] w2].
    simpl. intros ->. reflexivity.
Qed.

Lemma validateDownloadFile_returns_probe_error_witness :
  fst (validateDownloadFile Scenario.secondProbeDenied Scenario.svc
         (DownloadFileRequest.mk "bucket" "b.txt") Scenario.stocked)
  = Some (SdkErr Scenario.accessDenied).
Proof.
  destruct (validateDownloadFile_returns_probe_error Scenario.secondProbeDenied
              Scenario.svc (DownloadFileRequest.mk "bucket" "b.txt") Scenario.stocked
              (SdkErr Scenario.accessDenied)) as (_ & Hfile); [discriminate .. |].
  rewrite Hfile; reflexivity.
Defined.

(* ===================================================================== *)
(** * Further properties: how the operations compose *)
(* ===================================================================== *)

Section Compose.
Context (env : Env) (s : s3Service).
Hypothesis s3_quiet : ∀ c, s3Fault env c = None.
Hypothesis os_quiet : ∀ c, osFault env c = None.

(** X8. In an environment without faults, a valid upload of a name that
    is not in the bucket returns the locator of the store; afterwards the
    object probe and the bucket probe of the package both answer true, the
    object holds the decoded payload with the declared content type, and
    the staged file is gone. *)
Theorem UploadFile_then_probes (data : UploadFileData.t) (w : World)
  (dec : list Byte.byte) :
  let bucketName := UploadFileData.BucketName data in
  let filename := UploadFileData.Filename data in
  reachesProbe data →
  store w !! bucketName ≫= (.!! filename) = None →
  Base64.DecodeString (UploadFileData.Base64Encoding data) = (dec, None) →
  ∃ w',
    UploadFile env s data w = ((s3Location env bucketName filename, None), w')
    ∧ fst (isFileExist env s bucketName filename w') = (true, None)
    ∧ fst (isExistBucket env s bucketName w') = (true, None)
    ∧ store w' !! bucketName ≫= (.!! filename)
      = Some (mkObject dec (UploadFileData.ContentType data))
    ∧ files w' !! fst (stagedPath env data w) = None.
Proof.
  intros bucketName filename Hreach Hnew Hdec.
  destruct (UploadFile_fault_free env s s3_quiet os_quiet data w dec Hreach Hnew Hdec)
    as (w' & Hrun & Hobj & Hgone).
  fold bucketName filename in Hrun, Hobj.
  exists w'. split; [exact Hrun |]. repeat split; try assumption.
  - rewrite isFileExist_store; [| apply Hreach | apply s3_quiet]. now rewrite Hobj.
  - rewrite isExistBucket_store by apply s3_quiet.
    destruct (store w' !! bucketName); [reflexivity | discriminate].
Qed.

(** X9. In an environment without faults, the same valid upload made a
    second time is rejected with an AlreadyExists error, and the second
    call changes neither the store nor the files. *)
Theorem UploadFile_twice (data : UploadFileData.t) (w : World) (dec : list Byte.byte) :
  let bucketName := UploadFileData.BucketName data in
  let filename := UploadFileData.Filename data in
  reachesProbe data →
  store w !! bucketName ≫= (.!! filename) = None →
  Base64.DecodeString (UploadFileData.Base64Encoding data) = (dec, None) →
  ∃ w' err w'',
    UploadFile env s data w = ((s3Location env bucketName filename, None), w')
    ∧ UploadFile env s data w' = (("", Some err), w'')
    ∧ AlreadyExists err
    ∧ store w'' = store w'
    ∧ files w'' = files w'.
Proof.
  intros bucketName filename Hreach Hnew Hdec.
  destruct (UploadFile_fault_free env s s3_quiet os_quiet data w dec Hreach Hnew Hdec)
    as (w' & Hrun & Hobj & _).
  fold bucketName filename in Hrun, Hobj.
  exists w'. unfold UploadFile at 2.
  rewrite (validateUploadFile_probe_answer env s data w' Hreach).
  fold bucketName filename.
  rewrite isFileExist_store; [| apply Hreach | apply s3_quiet]. rewrite Hobj. simpl.
  do 2 eexists. split; [exact Hrun |]. split; [reflexivity |].
  split; [unfold AlreadyExists; eauto | split; reflexivity].
Qed.

(** X10. In an environment without faults, a valid DeleteFile whose
    requested names are not empty, on a bucket of the store, succeeds when
    one of the requested names is in the bucket; when none is, the batch
    call carries no object, the client refuses it and DeleteFile returns
    that error.  Either way, afterwards the object probe of the package
    answers false for every requested name and answers for every other
    name what it answered before. *)
Theorem DeleteFile_then_probes (data : DeleteFileData.t) (w : World) :
  let bucketName := DeleteFileData.BucketName data in
  validateDeleteFile s data = None →
  "" ∉ DeleteFileData.Filename data →
  is_Some (store w !! bucketName) →
  ∃ w',
    DeleteFile env s data w
    = (match existing env s bucketName w (DeleteFileData.Filename data) with
       | [] => Some (SdkErr missingObjects)
       | _ :: _ => None
       end, w')
    ∧ ∀ key,
        fst (isFileExist env s bucketName key w')
        = if bool_decide (key ∈ DeleteFileData.Filename data) then (false, None)
          else fst (isFileExist env s bucketName key w).
Proof.
  intros bucketName Hvalid Hnames [objs Hbucket].
  destruct (DeleteFile_fault_free env s s3_quiet data w objs Hvalid Hnames Hbucket)
    as (w' & objs' & Hrun & Hbucket' & Hobjs).
  fold bucketName in Hbucket'.
  exists w'. split; [exact Hrun |]. intros key.
  destruct (decide (key = "")) as [->|Hkey].
  { rewrite bool_decide_eq_false_2 by assumption.
    now rewrite !isFileExist_empty_key. }
  rewrite !isFileExist_store by (assumption || apply s3_quiet).
  rewrite Hbucket', Hbucket. simpl. rewrite Hobjs.
  destruct (bool_decide (key ∈ DeleteFileData.Filename data)); reflexivity.
Qed.

(** X11. In an environment without faults, an object that was uploaded
    can be deleted again: after the upload and a DeleteFile that names it,
    the object probe answers false, as before the upload. *)
Theorem UploadFile_then_DeleteFile (data : UploadFileData.t) (w : World)
  (dec : list Byte.byte) :
  let bucketName := UploadFileData.BucketName data in
  let filename := UploadFileData.Filename data in
  reachesProbe data →
  store w !! bucketName ≫= (.!! filename) = None →
  Base64.DecodeString (UploadFileData.Base64Encoding data) = (dec, None) →
  ∃ w' w'',
    UploadFile env s data w = ((s3Location env bucketName filename, None), w')
    ∧ DeleteFile env s (DeleteFileData.mk bucketName [filename]) w' = (None, w'')
    ∧ fst (isFileExist env s bucketName filename w'') = (false, None).
Proof.
  intros bucketName filename Hreach Hnew Hdec.
  destruct (UploadFile_fault_free env s s3_quiet os_quiet data w dec Hreach Hnew Hdec)
    as (w' & Hrun & Hobj & _).
  fold bucketName filename in Hrun, Hobj.
  destruct (store w' !! bucketName) as [objs|] eqn:Hbucket; [| discriminate].
  destruct (DeleteFile_fault_free env s s3_quiet
              (DeleteFileData.mk bucketName [filename]) w' objs)
    as (w'' & objs' & Hdel & Hbucket' & Hobjs).
  { unfold validateDeleteFile. simpl.
    destruct Hreach as (_ & _ & Hb & _). now rewrite decide_False. }
  { simpl. intros Hin. apply list_elem_of_singleton in Hin.
    destruct Hreach as (Hf & _). apply Hf. symmetry. exact Hin. }
  { exact Hbucket. }
  simpl in Hdel, Hbucket', Hobjs.
  assert (Hthere : fst (isFileExist env s bucketName filename w') = (true, None)).
  { rewrite isFileExist_store; [| apply Hreach | apply s3_quiet].
    now rewrite Hbucket, Hobj. }
  unfold existing in Hdel. simpl in Hdel. rewrite Hthere in Hdel. simpl in Hdel.
  exists w', w''. split; [exact Hrun |]. split; [exact Hdel |].
  rewrite isFileExist_store; [| apply Hreach | apply s3_quiet]. rewrite Hbucket'. simpl.
  rewrite Hobjs. rewrite (bool_decide_eq_true_2 (filename ∈ [filename])) by left.
  reflexivity.
Qed.

End Compose.

Lemma UploadFile_then_probes_witness :
  ∃ w',
    UploadFile Scenario.quiet Scenario.svc Scenario.greeting Scenario.emptyWorld
    = (("https://bucket.s3.amazonaws.com/greeting.txt", None), w')
    ∧ fst (isFileExist Scenario.quiet Scenario.svc "bucket" "greeting.txt" w') = (true, None)
    ∧ fst (isExistBucket Scenario.quiet Scenario.svc "bucket" w') = (true, None)
    ∧ store w' !! "bucket" ≫= (.!! "greeting.txt")
      = Some (mkObject Scenario.hello "text/plain")
    ∧ files w' !! "greeting.txt" = None.
Proof.
  apply (UploadFile_then_probes Scenario.quiet Scenario.svc
           (fun _ => eq_refl) (fun _ => eq_refl)
           Scenario.greeting Scenario.emptyWorld Scenario.hello).
  - repeat split; discriminate.
  - reflexivity.
  - reflexivity.
Defined.

Lemma UploadFile_twice_witness :
  ∃ w' err w'',
    UploadFile Scenario.quiet Scenario.svc Scenario.greeting Scenario.emptyWorld
    = (("https://bucket.s3.amazonaws.com/greeting.txt", None), w')
    ∧ UploadFile Scenario.quiet Scenario.svc Scenario.greeting w' = (("", Some err), w'')
    ∧ AlreadyExists err
    ∧ store w'' = store w'
    ∧ files w'' = files w'.
Proof.
  apply (UploadFile_twice Scenario.quiet Scenario.svc
           (fun _ => eq_refl) (fun _ => eq_refl)
           Scenario.greeting Scenario.emptyWorld Scenario.hello).
  - repeat split; discriminate.
  - reflexivity.
  - reflexivity.
Defined.

Lemma DeleteFile_then_probes_witness :
  (∃ w',
      DeleteFile Scenario.quiet Scenario.svc Scenario.deleteAB Scenario.stocked = (None, w')
      ∧ fst (isFileExist Scenario.quiet Scenario.svc "bucket" "a.txt" w') = (false, None)
      ∧ fst (isFileExist Scenario.quiet Scenario.svc "bucket" "greeting.txt" w')
        = (true, None))
  ∧ fst (DeleteFile Scenario.quiet Scenario.svc (DeleteFileData.mk "bucket" ["b.txt"])
           Scenario.stocked)
    = Some (SdkErr missingObjects).
Proof.
  split.
  - destruct (DeleteFile_then_probes Scenario.quiet Scenario.svc (fun _ => eq_refl)
                Scenario.deleteAB Scenario.stocked) as (w' & Hrun & Hprobe).
    + reflexivity.
    + intros Hin. repeat (apply elem_of_cons in Hin as [Hin|Hin]; [discriminate |]).
      inversion Hin.
    + eexists. reflexivity.
    + exists w'. split; [exact Hrun |]. split.
      * exact (Hprobe "a.txt").
      * exact (Hprobe "greeting.txt").
  - destruct (DeleteFile_then_probes Scenario.quiet Scenario.svc (fun _ => eq_refl)
                (DeleteFileData.mk "bucket" ["b.txt"]) Scenario.stocked)
      as (w' & Hrun & _).
    + reflexivity.
    + intros Hin. repeat (apply elem_of_cons in Hin as [Hin|Hin]; [discriminate |]).
      inversion Hin.
    + eexists. reflexivity.
    + rewrite Hrun. reflexivity.
Defined.

Lemma UploadFile_then_DeleteFile_witness :
  ∃ w' w'',
    UploadFile Scenario.quiet Scenario.svc Scenario.greeting Scenario.emptyWorld
    = (("https://bucket.s3.amazonaws.com/greeting.txt", None), w')
    ∧ DeleteFile Scenario.quiet Scenario.svc
        (DeleteFileData.mk "bucket" ["greeting.txt"]) w' = (None, w'')
    ∧ fst (isFileExist Scenario.quiet Scenario.svc "bucket" "greeting.txt" w'')
      = (false, None).
Proof.
  apply (UploadFile_then_DeleteFile Scenario.quiet Scenario.svc
           (fun _ => eq_refl) (fun _ => eq_refl)
           Scenario.greeting Scenario.emptyWorld Scenario.hello).
  - repeat split; discriminate.
  - reflexivity.
  - reflexivity.
Defined.

(* ===================================================================== *)
(** * Further properties: the staged path, provisioning *)
(* ===================================================================== *)

Lemma takeWhile_Forall {A} (p : A → bool) (l : list A) :
  Forall (fun x => p x = true) (GoStrings.takeWhile p l).
Proof.
  induction l as [|x l IH]; simpl; [constructor |].
  destruct (p x) eqn:Hx; constructor; assumption.
Qed.

(** The last element of a path is the root or has no separator. *)
Lemma filepath_Base_flat (path : string) :
  filepath_Base path = "/"
  ∨ Forall (fun c => isPathSeparator c = false)
           (list_ascii_of_string (filepath_Base path)).
Proof.
  unfold filepath_Base. destruct path as [|c path].
  { right. repeat constructor. }
  set (stripped := GoStrings.dropWhile _ _).
  pose proof (takeWhile_Forall (fun c => negb (isPathSeparator c)) stripped) as Hall.
  destruct (GoStrings.takeWhile _ stripped) as [|a last]; [now left |].
  right. rewrite list_ascii_of_string_of_list_ascii.
  apply List.Forall_rev. eapply Forall_impl; [exact Hall |].
  intros x Hx. now apply negb_true_iff.
Qed.

(** X12. The staged path is a single path element: it is the root path
    or it has no separator, whatever the temporary directory, the
    identifier and the filename of the request are.  The staged file is
    therefore never placed under the temporary directory. *)
Theorem stagedPath_has_no_directory (env : Env) (data : UploadFileData.t) (w : World) :
  fst (stagedPath env data w) = "/"
  ∨ Forall (fun c => isPathSeparator c = false)
           (list_ascii_of_string (fst (stagedPath env data w))).
Proof. unfold stagedPath, uuid_NewV4. simpl. apply filepath_Base_flat. Qed.

(** X13. The bucket that UploadFile creates is not rolled back: when the
    bucket of the request is not in the store, the bucket probe and the
    creation go through and the upload call fails, UploadFile returns the
    upload error, the staged file has been removed, and the store is the
    store of the beginning with the new, empty bucket. *)
Theorem UploadFile_keeps_created_bucket (env : Env) (s : s3Service)
  (data : UploadFileData.t) (w w1 : World) (dec : list Byte.byte) (err : SdkError) :
  let bucketName := UploadFileData.BucketName data in
  let input := PutObjectInput.mk bucketName (UploadFileData.Filename data)
                                 (UploadFileData.ContentType data) dec in
  validateUploadFile env s data w = (None, w1) →
  Base64.DecodeString (UploadFileData.Base64Encoding data) = (dec, None) →
  (∀ c, osFault env c = None) →
  store w !! bucketName = None →
  s3Fault env (HeadBucketCall bucketName) = None →
  s3Fault env (CreateBucketCall bucketName (region s)) = None →
  s3Fault env (UploadCall input PartSize) = Some err →
  ∃ w',
    UploadFile env s data w
    = (("", Some (ErrorString ("failed to upload file: " +:+ sdkMessage err))), w')
    ∧ store w' = <[bucketName := ∅]> (store w)
    ∧ files w' !! fst (stagedPath env data w) = None.
Proof.
  intros bucketName input Hv Hdec Hos Hnone Hhead Hcreate Hupload.
  pose proof Hv as Hpass. apply validateUploadFile_passes in Hpass as ((_ & _ & Hb & _) & _).
  destruct (UploadFile_after_validation env s data w w1 Hv) as (-> & ->).
  cbv zeta. set (pathFile := fst (stagedPath env data _)).
  rewrite (createFile_fault_free env Hos _ pathFile _ dec Hdec).
  set (w3 := mkWorld _ _ _ _).
  assert (Ht : ∃ w4,
             transfer env s data pathFile w3
             = (("", Some (ErrorString ("failed to upload file: " +:+ sdkMessage err))), w4)
             ∧ store w4 = <[bucketName := ∅]> (store w)).
  { unfold transfer, osDo, osStep. rewrite Hos. subst w3. simpl.
    rewrite lookup_insert_eq. simpl.
    unfold isExistBucket, s3Do. simpl store.
    unfold s3Step at 1. fold bucketName. rewrite Hhead, Hnone. simpl.
    unfold CreateBucket. fold bucketName. rewrite decide_False by assumption.
    unfold s3Do. simpl store. unfold s3Step at 1. rewrite Hcreate, Hnone. simpl.
    unfold s3Step. rewrite ?lookup_insert_eq. simpl default. fold input.
    rewrite Hupload. simpl.
    eexists. split; reflexivity. }
  destruct Ht as (w4 & -> & Hst). simpl.
  pose proof (removeFile_world env pathFile w4) as Hrm.
  pose proof (removeFile_removes env pathFile w4 (Hos _)) as Hgone.
  destruct (removeFile env pathFile w4) as [rmErr w5]. simpl in *.
  exists w5. split; [reflexivity |]. split; [| exact Hgone].
  subst w5. exact Hst.
Qed.

Lemma UploadFile_keeps_created_bucket_witness :
  ∃ w',
    UploadFile Scenario.transferFails Scenario.svc Scenario.greeting Scenario.emptyWorld
    = (("", Some (ErrorString "failed to upload file: Forbidden: Forbidden")), w')
    ∧ store w' = <["bucket" := ∅]> (store Scenario.emptyWorld)
    ∧ files w' !! "greeting.txt" = None.
Proof.
  apply (UploadFile_keeps_created_bucket Scenario.transferFails Scenario.svc
           Scenario.greeting Scenario.emptyWorld
           (logged (probeEvent "bucket" "greeting.txt") Scenario.emptyWorld)
           Scenario.hello Scenario.accessDenied); reflexivity.
Defined.

(** X14. A CreateBucket that succeeds has made one call, the creation of
    the bucket in the region of the service, and has changed no object and
    no file; afterwards the bucket probe, when the store answers it,
    reports the bucket, and a second CreateBucket of the same name is
    not swallowed: it returns an error. *)
Theorem CreateBucket_then_probe (env : Env) (s : s3Service) (bucketName : string)
  (w w' : World) :
  CreateBucket env s bucketName w = (None, w') →
  trace w' = trace w ++ [S3Event (CreateBucketCall bucketName (region s))]
  ∧ files w' = files w
  ∧ (∀ b k, store w' !! b ≫= (.!! k) = store w !! b ≫= (.!! k))
  ∧ (s3Fault env (HeadBucketCall bucketName) = None →
     fst (isExistBucket env s bucketName w') = (true, None))
  ∧ ∃ err, fst (CreateBucket env s bucketName w') = Some err.
Proof.
  unfold CreateBucket.
  destruct (decide (bucketName = "")) as [|Hne]; [discriminate |].
  unfold s3Do, s3Step.
  destruct (s3Fault env (CreateBucketCall bucketName (region s))) as [e|] eqn:Hfault;
    [discriminate |].
  destruct (store w !! bucketName) eqn:Hbucket; [discriminate |].
  intros [= <-]. simpl. rewrite lookup_insert_eq. simpl.
  repeat split.
  - intros b k. destruct (decide (bucketName = b)) as [<-|Hb].
    + rewrite lookup_insert_eq, Hbucket. simpl. apply lookup_empty.
    + now rewrite lookup_insert_ne.
  - intros Hhead. unfold isExistBucket, s3Do, s3Step. simpl. rewrite Hhead.
    rewrite lookup_insert_eq. reflexivity.
  - eauto.
Qed.

Lemma CreateBucket_then_probe_witness :
  fst (isExistBucket Scenario.quiet Scenario.svc "valid-name"
         (snd (CreateBucket Scenario.quiet Scenario.svc "valid-name" Scenario.stocked)))
  = (true, None).
Proof.
  apply (CreateBucket_then_probe Scenario.quiet Scenario.svc "valid-name" Scenario.stocked
           (snd (CreateBucket Scenario.quiet Scenario.svc "valid-name" Scenario.stocked))).
  - reflexivity.
  - reflexivity.
Defined.

(** X15. When the bucket probe fails with an error that is not an API
    error, UploadFile takes the bucket for present: with a valid request, a
    payload that decodes and a file system that does not fail, it makes no
    call to create the bucket and goes on to the upload call, whether or
    not the bucket is in the store. *)
Theorem UploadFile_uploads_after_unanswered_bucket_probe (env : Env) (s : s3Service)
  (data : UploadFileData.t) (w w1 : World) (dec : list Byte.byte) (err : SdkError) :
  let bucketName := UploadFileData.BucketName data in
  let filename := UploadFileData.Filename data in
  let pathFile := fst (stagedPath env data w) in
  let input := PutObjectInput.mk bucketName filename
                                 (UploadFileData.ContentType data) dec in
  validateUploadFile env s data w = (None, w1) →
  Base64.DecodeString (UploadFileData.Base64Encoding data) = (dec, None) →
  (∀ c, osFault env c = None) →
  s3Fault env (HeadBucketCall bucketName) = Some err →
  asAPIError err = None →
  trace (snd (UploadFile env s data w))
  = trace w ++ [probeEvent bucketName filename;
                OsEvent (OsCreate pathFile);
                OsEvent (FileWrite pathFile dec);
                OsEvent (OsOpen pathFile);
                S3Event (HeadBucketCall bucketName);
                S3Event (UploadCall input PartSize);
                OsEvent (OsRemoveAll pathFile)].
Proof.
  intros bucketName filename pathFile input Hv Hdec Hos Hhead Hnoapi.
  destruct (UploadFile_after_validation env s data w w1 Hv) as (-> & ->).
  cbv zeta. fold bucketName filename. subst pathFile.
  set (pathFile := fst (stagedPath env data _)).
  rewrite (createFile_fault_free env Hos _ pathFile _ dec Hdec).
  simpl snd. rewrite removeFile_world. simpl trace.
  unfold transfer, osDo, osStep. rewrite Hos. simpl.
  rewrite !lookup_insert_eq. simpl.
  unfold isExistBucket, s3Do. simpl store.
  unfold s3Step at 1. fold bucketName. rewrite Hhead, Hnoapi. simpl.
  rewrite ?lookup_insert_eq. simpl default. fold filename input.
  destruct (s3Step env (UploadCall input PartSize) (store w)) as [[upErr|] st]; simpl;
    now rewrite <- !app_assoc.
Qed.

Lemma UploadFile_uploads_after_unanswered_bucket_probe_witness :
  let unreachableBucket :=
    Scenario.withS3Fault (fun c => match c with
                                   | HeadBucketCall _ => Some Scenario.connectionRefused
                                   | _ => None
                                   end) in
  trace (snd (UploadFile unreachableBucket Scenario.svc Scenario.greeting
                Scenario.emptyWorld))
  = [probeEvent "bucket" "greeting.txt";
     OsEvent (OsCreate "greeting.txt");
     OsEvent (FileWrite "greeting.txt" Scenario.hello);
     OsEvent (OsOpen "greeting.txt");
     S3Event (HeadBucketCall "bucket");
     S3Event (UploadCall Scenario.greetingInput PartSize);
     OsEvent (OsRemoveAll "greeting.txt")].
Proof.
  intros unreachableBucket.
  apply (UploadFile_uploads_after_unanswered_bucket_probe unreachableBucket Scenario.svc
           Scenario.greeting Scenario.emptyWorld
           (logged (probeEvent "bucket" "greeting.txt") Scenario.emptyWorld)
           Scenario.hello Scenario.connectionRefused); reflexivity.
Defined.

(** X16. The validation of an upload contacts the store exactly when the
    request has its three required fields and a content type that parses:
    then it makes the existence probe and nothing else, and otherwise it
    returns the world it received. *)
Theorem validateUploadFile_probes_iff (env : Env) (s : s3Service)
  (data : UploadFileData.t) (w : World) :
  let probe := probeEvent (UploadFileData.BucketName data)
                          (UploadFileData.Filename data) in
  (reachesProbe data → snd (validateUploadFile env s data w) = logged probe w)
  ∧ (¬ reachesProbe data →
     snd (validateUploadFile env s data w) = w
     ∧ ∃ err, fst (validateUploadFile env s data w) = Some err).
Proof.
  intros probe. split.
  - intros Hreach. now rewrite (validateUploadFile_probe_answer env s data w Hreach).
  - intros Hnot. unfold reachesProbe in Hnot. unfold validateUploadFile.
    destruct (decide (UploadFileData.Filename data = "")); [simpl; eauto |].
    destruct (decide (UploadFileData.Base64Encoding data = "")); [simpl; eauto |].
    destruct (decide (UploadFileData.BucketName data = "")); [simpl; eauto |].
    destruct (Mime.ExtensionsByType_err _); [simpl; eauto |].
    exfalso. apply Hnot. auto.
Qed.

Lemma validateUploadFile_probes_iff_witness :
  snd (validateUploadFile Scenario.quiet Scenario.svc Scenario.greeting Scenario.stocked)
  = logged (probeEvent "bucket" "greeting.txt") Scenario.stocked
  ∧ snd (validateUploadFile Scenario.quiet Scenario.svc Scenario.noContentType
           Scenario.stocked)
    = Scenario.stocked.
Proof.
  split.
  - apply (validateUploadFile_probes_iff Scenario.quiet Scenario.svc Scenario.greeting
             Scenario.stocked).
    repeat split; discriminate.
  - apply (validateUploadFile_probes_iff Scenario.quiet Scenario.svc
             Scenario.noContentType Scenario.stocked).
    intros (_ & _ & _ & H). discriminate.
Defined.
